(** * Bulk update from entities: a shallow embedding of
      [src/utils/update_from_entities/sqla/async_updater.py]

    The class [AsyncBulkUpdaterFromEntities] maps a list of typed entities
    onto one [UPDATE .. FROM (VALUES ..)] statement.  The SQLAlchemy
    expression objects the class assembles are embedded as a small syntax
    tree, Python [dict]s as insertion-ordered association lists, Python
    exceptions as an error monad, and the objects that the class mutates or
    reads through references (the updater instance, the entities, the
    session) as an explicit store. *)

From stdpp Require Import base list strings gmap.

Open Scope string_scope.
Open Scope list_scope.

(** ** Python values and the row schema *)

(** Attribute values of entity instances.  [PyObject] stands for any other
    object, named by its qualified name: a bound method of the entity
    class, for one. *)
Inductive PyValue :=
| PyNone
| PyBool (b : bool)
| PyInt (z : Z)
| PyStr (s : string)
| PyObject (qualname : string).

(** [value is None] *)
Definition is_None (v : PyValue) : bool :=
  match v with PyNone => true | _ => false end.

(** The [type] attribute of a column: an opaque tag for the updater. *)
Inductive SqlType :=
| Integer
| Text
| Numeric
| Boolean
| Enum (name : string).

(** A column of the mapped table ([sa.Column]): the attributes the updater
    reads are [key], [type] and [primary_key]. *)
Record Column := mkColumn {
  key : string;
  type_ : SqlType;
  primary_key : bool
}.

(** Exceptions that the modelled code can raise. *)
Inductive exn :=
| AttributeError (attr : string)
| KeyError (k : string)
| DBAPIError (msg : string).

(** ** Results of fallible computations *)

Inductive result (A : Type) :=
| Ok (a : A)
| Raise (e : exn).
Arguments Ok {A} a.
Arguments Raise {A} e.

Definition rbind {A B} (r : result A) (f : A → result B) : result B :=
  match r with
  | Ok a => f a
  | Raise e => Raise e
  end.

Declare Scope result_scope.
Delimit Scope result_scope with result.
Notation "'let?' x := r 'in' k" := (rbind r (fun x => k))
  (at level 10, x pattern, r at level 100, k at level 200) : result_scope.
Open Scope result_scope.

(** A comprehension whose element expression may raise: elements are
    evaluated left to right and the first exception aborts the rest. *)
Fixpoint traverse {A B} (f : A → result B) (l : list A) : result (list B) :=
  match l with
  | [] => Ok []
  | a :: l' =>
      let? b := f a in
      let? bs := traverse f l' in
      Ok (b :: bs)
  end.

(** ** Python dictionaries

    A [dict] keeps its keys in insertion order; assigning to a key that is
    already present replaces the value and keeps the key's position. *)

Definition dict (V : Type) := list (string * V).

Definition keys {V} (d : dict V) : list string := d.*1.
Definition vals {V} (d : dict V) : list V := d.*2.
Definition items {V} (d : dict V) : list (string * V) := d.

(** [d.get(k)] *)
Fixpoint dict_get {V} (d : dict V) (k : string) : option V :=
  match d with
  | [] => None
  | (k', v) :: d' => if String.eqb k k' then Some v else dict_get d' k
  end.

(** [k in d] *)
Definition dict_mem {V} (d : dict V) (k : string) : bool :=
  match dict_get d k with Some _ => true | None => false end.

(** [d[k]], raising [KeyError] for a missing key. *)
Definition dict_getitem {V} (d : dict V) (k : string) : result V :=
  match dict_get d k with
  | Some v => Ok v
  | None => Raise (KeyError k)
  end.

(** [d[k] = v] *)
Fixpoint dict_set {V} (d : dict V) (k : string) (v : V) : dict V :=
  match d with
  | [] => [(k, v)]
  | (k', v') :: d' =>
      if String.eqb k k' then (k', v) :: d' else (k', v') :: dict_set d' k v
  end.

(** [{k: v for (k, v) in kvs}] *)
Definition dict_of_items {V} (kvs : list (string * V)) : dict V :=
  fold_left (fun d kv => dict_set d kv.1 kv.2) kvs [].

(** ** The two schemas *)

(** [model_class.__table__.columns]: the column collection of the mapped
    table, in declaration order. *)
Record OrmModel := mkOrmModel {
  tablename : string;
  columns : dict Column
}.

(** A column collection stores each column under the column's own [key],
    once. *)
Definition wf_columns (cols : dict Column) : Prop :=
  NoDup (keys cols) ∧ Forall (fun kc => key kc.2 = kc.1) cols.

(** [entity_class.model_fields]: only the field names are read. *)
Record EntityClass := mkEntityClass {
  model_fields : list string
}.

(** ** The updater instance *)

Definition Session := nat.

(** The slots of an [AsyncBulkUpdaterFromEntities] instance.  [_session]
    is the one slot that [__init__] leaves unset. *)
Record Updater := mkUpdater {
  _model_class : OrmModel;
  _entity_class : EntityClass;
  _session : option Session;
  _primary_fields : option (gset string);
  _orm_model_fields : dict Column;
  _primary_fields_by_name : dict Column;
  _default_update_fields_by_name : dict Column
}.

(** [_is_primary_key]; of [self] it reads [_primary_fields] only. *)
Definition _is_primary_key (primary_fields : option (gset string))
    (field_name : string) (field : Column) : bool :=
  match primary_fields with
  | None => primary_key field
  | Some pf => bool_decide (field_name ∈ pf)
  end.

(** [__init__] *)
Definition __init__ (model_class : OrmModel) (entity_class : EntityClass)
    (primary_fields : option (gset string)) : result Updater :=
  let orm_model_fields := columns model_class in
  let primary_fields_by_name :=
    dict_of_items
      (filter (fun kf => _is_primary_key primary_fields kf.1 kf.2 = true)
              (items orm_model_fields)) in
  let? default_items :=
    traverse
      (fun field_name =>
         let? field := dict_getitem orm_model_fields field_name in
         Ok (field_name, field))
      (filter (fun field_name =>
                 dict_mem orm_model_fields field_name
                 && negb (dict_mem primary_fields_by_name field_name) = true)
              (model_fields entity_class)) in
  Ok {| _model_class := model_class;
        _entity_class := entity_class;
        _session := None;
        _primary_fields := primary_fields;
        _orm_model_fields := orm_model_fields;
        _primary_fields_by_name := primary_fields_by_name;
        _default_update_fields_by_name := dict_of_items default_items |}.

(** [_clear_update_fields] *)
Definition _clear_update_fields (self : Updater)
    (raw_update_fields : option (list string)) : result (dict Column) :=
  match raw_update_fields with
  | None => Ok (_default_update_fields_by_name self)
  | Some raw =>
      let? kvs :=
        traverse
          (fun field_name =>
             let? field :=
               dict_getitem (_default_update_fields_by_name self) field_name in
             Ok (field_name, field))
          (filter (fun field_name =>
                     negb (dict_mem (_primary_fields_by_name self) field_name)
                     && dict_mem (_default_update_fields_by_name self) field_name
                     = true)
                  raw) in
      Ok (dict_of_items kvs)
  end.

(** ** Entities

    An entity instance holds the values of its fields in its own
    dictionary ([instance_dict], the instance's [__dict__]).  What the
    instance does not hold itself, attribute lookup takes from its class
    ([class_attributes]): the methods that [BaseModel] and the entity class
    define, such as [json], [dict] and [copy], and class variables.
    Instances live in a store and the updater receives references to
    them. *)

Record Entity := mkEntity {
  instance_dict : dict PyValue;
  class_attributes : dict PyValue
}.
Definition EntityRef := nat.

(** [getattr(entity, name)]: the instance's own value of that name, else
    the attribute of that name of its class, else [AttributeError].  A
    reference that is not in the store stands for no live object, and
    reading through it raises as well. *)
Definition getattr (store : list Entity) (entity : EntityRef) (name : string)
    : result PyValue :=
  match store !! entity with
  | Some e =>
      match dict_get (instance_dict e) name with
      | Some v => Ok v
      | None =>
          match dict_get (class_attributes e) name with
          | Some v => Ok v
          | None => Raise (AttributeError name)
          end
      end
  | None => Raise (AttributeError name)
  end.

(** ** SQL expression objects *)

(** One value of a [VALUES] row: a Python value passed through as it is, or
    [sa.null().cast(t)]. *)
Inductive Cell :=
| Raw (v : PyValue)
| NullCast (t : SqlType).

(** [sa.values] with its columns, its [name] and its [data] rows. *)
Record Values := mkValues {
  values_name : string;
  values_columns : list (string * SqlType);
  values_data : list (list Cell)
}.

#[local] Unset Elimination Schemes.
Inductive Expr :=
| TableCol (c : Column)                      (* a column of the target table *)
| ValuesCol (src : Values) (name : string) (t : SqlType)  (* [src.c.name] *)
| Param (v : PyValue)                        (* a Python value as operand *)
| Eq (a b : Expr)                            (* [a == b] *)
| InList (a : Expr) (vs : list PyValue)      (* [a.in_(vs)] *)
| And_ (es : list Expr).                     (* [sa.and_] of the operands *)
#[local] Set Elimination Schemes.

(** [sa.update] of a table with its [where] clause and its [values]
    keyword arguments, which form the SET clause. *)
Record Update := mkUpdate {
  table : OrmModel;
  whereclause : Expr;
  set_values : dict Expr
}.

(** [getattr(values.c, name)] *)
Definition values_c (v : Values) (name : string) : result Expr :=
  match dict_get (values_columns v) name with
  | Some t => Ok (ValuesCol v name t)
  | None => Raise (AttributeError name)
  end.

(** ** Statement construction *)

(** [_build_virtual_table_with_values_to_update] *)
Definition _build_virtual_table_with_values_to_update (self : Updater)
    (store : list Entity) (entities : list EntityRef)
    (update_fields : dict Column) : result Values :=
  let? data_for_values :=
    traverse
      (fun entity =>
         traverse
           (fun field_name =>
              let? value := getattr store entity field_name in
              let? field := dict_getitem (_orm_model_fields self) field_name in
              Ok (if is_None value then NullCast (type_ field) else Raw value))
           (keys (_primary_fields_by_name self) ++ keys update_fields))
      entities in
  Ok {| values_name := "new_data";
        values_columns :=
          (fun kf => (kf.1, type_ kf.2))
            <$> (items (_primary_fields_by_name self) ++ items update_fields);
        values_data := data_for_values |}.

(** [_build_single_lookup_expr_for_table] *)
Definition _build_single_lookup_expr_for_table (self : Updater)
    (store : list Entity) (entity : EntityRef) : result Expr :=
  let? conjuncts :=
    traverse
      (fun field =>
         let? v := getattr store entity (key field) in
         Ok (Eq (TableCol field) (Param v)))
      (vals (_primary_fields_by_name self)) in
  Ok (And_ conjuncts).

(** [_build_many_lookup_expr_for_table] *)
Definition _build_many_lookup_expr_for_table (self : Updater)
    (store : list Entity) (entities : list EntityRef) : result Expr :=
  let? conjuncts :=
    traverse
      (fun field =>
         let? vs :=
           traverse (fun entity => getattr store entity (key field)) entities in
         Ok (InList (TableCol field) vs))
      (vals (_primary_fields_by_name self)) in
  Ok (And_ conjuncts).

(** [_build_lookup_expr_for_join_table_and_values] *)
Definition _build_lookup_expr_for_join_table_and_values (self : Updater)
    (values : Values) : result Expr :=
  let? conjuncts :=
    traverse
      (fun table_field =>
         let? c := values_c values (key table_field) in
         Ok (Eq (TableCol table_field) c))
      (vals (_primary_fields_by_name self)) in
  Ok (And_ conjuncts).

(** [_build_update_statement] *)
Definition _build_update_statement (self : Updater) (store : list Entity)
    (entities : list EntityRef) (update_fields : dict Column)
    (new_data_values : Values) : result Update :=
  let? many := _build_many_lookup_expr_for_table self store entities in
  let? join :=
    _build_lookup_expr_for_join_table_and_values self new_data_values in
  let? kvs :=
    traverse
      (fun field_name =>
         let? c := values_c new_data_values field_name in
         Ok (field_name, c))
      (keys update_fields) in
  Ok {| table := _model_class self;
        whereclause := And_ [many; join];
        set_values := dict_of_items kvs |}.

(** ** The store and the public methods *)

Definition UpdaterRef := nat.

(** Updater instances and entity instances are reached through references;
    [executed] records every call of [session.execute], in order. *)
Record World := mkWorld {
  updaters : list Updater;
  entities_of : list Entity;
  executed : list (Session * Update)
}.

Definition M (A : Type) := World → result A * World.

Definition mret {A} (a : A) : M A := fun w => (Ok a, w).

Definition mbind {A B} (m : M A) (f : A → M B) : M B :=
  fun w =>
    match m w with
    | (Ok a, w') => f a w'
    | (Raise e, w') => (Raise e, w')
    end.

Definition lift {A} (r : result A) : M A := fun w => (r, w).

Definition get_world : M World := fun w => (Ok w, w).

Notation "'do' x <- m ; k" := (mbind m (fun x => k))
  (at level 10, x pattern, m at level 100, k at level 200) : result_scope.

(** Reading a slot of [self]. *)
Definition slots (self : UpdaterRef) : M Updater :=
  fun w =>
    match updaters w !! self with
    | Some u => (Ok u, w)
    | None => (Raise (AttributeError "self"), w)
    end.

(** [self._session]; the slot is unset until [__call__] has run. *)
Definition session_of (u : Updater) : result Session :=
  match _session u with
  | Some s => Ok s
  | None => Raise (AttributeError "_session")
  end.

Definition set_session (session : Session) (u : Updater) : Updater :=
  {| _model_class := _model_class u;
     _entity_class := _entity_class u;
     _session := Some session;
     _primary_fields := _primary_fields u;
     _orm_model_fields := _orm_model_fields u;
     _primary_fields_by_name := _primary_fields_by_name u;
     _default_update_fields_by_name := _default_update_fields_by_name u |}.

(** [__call__] *)
Definition __call__ (self : UpdaterRef) (session : Session) : M UpdaterRef :=
  fun w =>
    (Ok self,
     {| updaters := alter (set_session session) self (updaters w);
        entities_of := entities_of w;
        executed := executed w |}).

Section Execution.

(** The answer of the database to a statement: [None] when the statement
    is carried out, [Some e] when the session raises [e]. *)
Variable db_raises : Session → Update → option exn.

(** [await session.execute(stmt)] *)
Definition execute (session : Session) (stmt : Update) : M unit :=
  fun w =>
    let w' := {| updaters := updaters w;
                 entities_of := entities_of w;
                 executed := executed w ++ [(session, stmt)] |} in
    match db_raises session stmt with
    | None => (Ok tt, w')
    | Some e => (Raise e, w')
    end.

(** [update_from_entity] *)
Definition update_from_entity (self : UpdaterRef) (entity : EntityRef)
    (update_fields : option (list string)) : M EntityRef :=
  do u <- slots self;
  do w <- get_world;
  do update_fields <- lift (_clear_update_fields u update_fields);
  do lookup <- lift (_build_single_lookup_expr_for_table u (entities_of w) entity);
  do kvs <- lift (traverse
                    (fun field_name =>
                       let? v := getattr (entities_of w) entity field_name in
                       Ok (field_name, Param v))
                    (keys update_fields));
  let stmt := {| table := _model_class u;
                 whereclause := lookup;
                 set_values := dict_of_items kvs |} in
  do session <- lift (session_of u);
  do _ <- execute session stmt;
  mret entity.

(** [update_from_entities] *)
Definition update_from_entities (self : UpdaterRef) (entities : list EntityRef)
    (update_fields : option (list string)) : M (option (list EntityRef)) :=
  if Nat.eqb (length entities) 0 then mret None
  else
    do u <- slots self;
    do w <- get_world;
    do update_fields <- lift (_clear_update_fields u update_fields);
    do new_data_values <-
      lift (_build_virtual_table_with_values_to_update
              u (entities_of w) entities update_fields);
    do stmt <-
      lift (_build_update_statement
              u (entities_of w) entities update_fields new_data_values);
    do session <- lift (session_of u);
    do _ <- execute session stmt;
    mret (Some entities).

End Execution.

Definition order_model : OrmModel :=
  {| tablename := "order";
     columns := [("order_id", mkColumn "order_id" Integer true);
                 ("attempt_id", mkColumn "attempt_id" Integer true);
                 ("status", mkColumn "status" Text false);
                 ("total", mkColumn "total" Numeric false)] |}.

Definition order_entity : EntityClass :=
  {| model_fields := ["order_id"; "attempt_id"; "status"; "total"] |}.

(** Some of the attributes that every entity takes from [BaseModel]. *)
Definition base_model_attributes : dict PyValue :=
  [("json", PyObject "BaseModel.json");
   ("dict", PyObject "BaseModel.dict");
   ("copy", PyObject "BaseModel.copy")].

Definition order_store : list Entity :=
  [ mkEntity [("order_id", PyInt 1); ("attempt_id", PyInt 1);
              ("status", PyStr "paid"); ("total", PyNone)]
             base_model_attributes;
    mkEntity [("order_id", PyInt 1); ("attempt_id", PyInt 2);
              ("status", PyStr "failed"); ("total", PyInt 50)]
             base_model_attributes ].

(** The instance that [__init__] builds for the two schemas above. *)
Definition order_updater : Updater :=
  {| _model_class := order_model;
     _entity_class := order_entity;
     _session := None;
     _primary_fields := None;
     _orm_model_fields := columns order_model;
     _primary_fields_by_name :=
       [("order_id", mkColumn "order_id" Integer true);
        ("attempt_id", mkColumn "attempt_id" Integer true)];
     _default_update_fields_by_name :=
       [("status", mkColumn "status" Text false);
        ("total", mkColumn "total" Numeric false)] |}.

(** One updater instance, not yet bound, and the two entities. *)
Definition order_world : World :=
  {| updaters := [order_updater];
     entities_of := order_store;
     executed := [] |}.

(** A database that carries out every statement. *)
Definition accepting_db : Session → Update → option exn := fun _ _ => None.

(** A table without a declared primary key, and its entity. *)
Definition audit_model : OrmModel :=
  {| tablename := "audit_log";
     columns := [("message", mkColumn "message" Text false)] |}.

Definition audit_entity : EntityClass :=
  {| model_fields := ["message"] |}.

(** The instance that [__init__] builds for the table without a key, bound
    to a session, and one entity. *)
Definition audit_updater : Updater :=
  {| _model_class := audit_model;
     _entity_class := audit_entity;
     _session := None;
     _primary_fields := None;
     _orm_model_fields := columns audit_model;
     _primary_fields_by_name := [];
     _default_update_fields_by_name :=
       [("message", mkColumn "message" Text false)] |}.

Definition audit_world : World :=
  {| updaters := [set_session 3 audit_updater];
     entities_of := [mkEntity [("message", PyStr "rotated")]
                              base_model_attributes];
     executed := [] |}.



(** A table with a column named [json], and an instance that was built
    without its [json] field: the name then resolves to the method that
    the instance takes from [BaseModel]. *)
Definition doc_model : OrmModel :=
  {| tablename := "doc_ref";
     columns := [("id", mkColumn "id" Integer true);
                 ("json", mkColumn "json" Text false)] |}.

Definition doc_entity : EntityClass :=
  {| model_fields := ["id"; "json"] |}.

Definition doc_updater : Updater :=
  {| _model_class := doc_model;
     _entity_class := doc_entity;
     _session := None;
     _primary_fields := None;
     _orm_model_fields := columns doc_model;
     _primary_fields_by_name := [("id", mkColumn "id" Integer true)];
     _default_update_fields_by_name :=
       [("json", mkColumn "json" Text false)] |}.

Definition doc_world : World :=
  {| updaters := [set_session 4 doc_updater];
     entities_of := [mkEntity [("id", PyInt 1)] base_model_attributes];
     executed := [] |}.

(** ** Definitions used to state the properties *)

(** The dictionary under construction in a comprehension. *)
Definition dict_extend {V} (d : dict V) (kvs : list (string * V)) : dict V :=
  fold_left (fun d kv => dict_set d kv.1 kv.2) kvs d.

(** The items of the row schema that [_is_primary_key] accepts. *)
Definition resolved_primary (model_class : OrmModel)
    (primary_fields : option (gset string)) : list (string * Column) :=
  filter (fun kf => _is_primary_key primary_fields kf.1 kf.2 = true)
         (items (columns model_class)).

(** The entity field names that the default update mapping is built from. *)
Definition resolved_default_names (model_class : OrmModel)
    (entity_class : EntityClass) (primary_fields : option (gset string))
    : list string :=
  filter (fun field_name =>
            dict_mem (columns model_class) field_name
            && negb (dict_mem
                       (dict_of_items
                          (resolved_primary model_class primary_fields))
                       field_name)
            = true)
         (model_fields entity_class).

(** The requested names that [_clear_update_fields] keeps. *)
Definition kept_names (self : Updater) (raw : list string) : list string :=
  filter (fun field_name =>
            negb (dict_mem (_primary_fields_by_name self) field_name)
            && dict_mem (_default_update_fields_by_name self) field_name
            = true)
         raw.

(** An entity reference denotes a live instance of the entity class: the
    instance holds a value of every declared field. *)
Definition instance_of (store : list Entity) (entity_class : EntityClass)
    (r : EntityRef) : Prop :=
  match store !! r with
  | Some ent => model_fields entity_class ⊆ keys (instance_dict ent)
  | None => False
  end.

(** The value of an attribute that is known to be present. *)
Definition attr_value (store : list Entity) (r : EntityRef) (n : string)
    : PyValue :=
  match getattr store r n with
  | Ok v => v
  | Raise _ => PyNone
  end.

(** The cell that the row-set holds for one attribute value. *)
Definition cell_spec (t : SqlType) (value : PyValue) : Cell :=
  match value with
  | PyNone => NullCast t
  | _ => Raw value
  end.

(** The scoping filter: every key column is among the batch's values. *)
Definition many_lookup_spec (pk : list Column) (store : list Entity)
    (entities : list EntityRef) : Expr :=
  And_ ((fun f =>
           InList (TableCol f)
                  ((fun r => attr_value store r (key f)) <$> entities))
          <$> pk).

(** The join predicate: every key column equals the row-set column of the
    same name. *)
Definition join_spec (pk : list Column) (v : Values) : Expr :=
  And_ ((fun f => Eq (TableCol f) (ValuesCol v (key f) (type_ f))) <$> pk).

(** The SET clause: every update column is assigned from the row-set column
    of the same name. *)
Definition set_spec (d : dict Column) (v : Values) : dict Expr :=
  (fun kf => (kf.1, ValuesCol v kf.1 (type_ kf.2))) <$> d.

(** The world after one more statement went to a session. *)
Definition logged (w : World) (s : Session) (stmt : Update) : World :=
  {| updaters := updaters w;
     entities_of := entities_of w;
     executed := executed w ++ [(s, stmt)] |}.

(** What a call returns once its statement went to the session. *)
Definition outcome {A} (answer : option exn) (a : A) : result A :=
  match answer with
  | None => Ok a
  | Some e => Raise e
  end.

(** The lookup of the single-entity statement. *)
Definition single_lookup_spec (pk : list Column) (store : list Entity)
    (entity : EntityRef) : Expr :=
  And_ ((fun f => Eq (TableCol f) (Param (attr_value store entity (key f))))
          <$> pk).

(** The SET clause of the single-entity statement. *)
Definition single_set_spec (d : dict Column) (store : list Entity)
    (entity : EntityRef) : dict Expr :=
  (fun kf => (kf.1, Param (attr_value store entity kf.1))) <$> d.

(** * Properties *)

(** ** Decidable side conditions *)

#[export] Instance wf_columns_dec cols : Decision (wf_columns cols).
Proof. unfold wf_columns. apply _. Defined.

#[export] Instance instance_of_dec store entity_class r :
  Decision (instance_of store entity_class r).
Proof. unfold instance_of. destruct (store !! r); apply _. Defined.

(** ** Fallible comprehensions *)

Lemma traverse_Ok_Forall2 {A B} (f : A → result B) l bs :
  traverse f l = Ok bs ↔ Forall2 (fun a b => f a = Ok b) l bs.
Proof.
  revert bs. induction l as [|a l IH]; intros bs; simpl.
  - split.
    + intros [= <-]. constructor.
    + intros H. by inversion H.
  - split.
    + destruct (f a) as [b|] eqn:Hfa; simpl; [|done].
      destruct (traverse f l) as [bs'|] eqn:Hl; simpl; [|done].
      intros [= <-]. constructor; [done|]. by apply IH.
    + intros H. inversion H as [|? b ? bs' Hfa Hrest]; subst.
      rewrite Hfa. simpl. apply IH in Hrest. by rewrite Hrest.
Qed.

Lemma traverse_total {A B} (f : A → result B) (g : A → B) l :
  (∀ a, a ∈ l → f a = Ok (g a)) → traverse f l = Ok (g <$> l).
Proof.
  induction l as [|a l IH]; intros H; simpl; [done|].
  rewrite (H a) by left. simpl.
  rewrite IH; [done|]. intros a' Ha'. apply H. by right.
Qed.

Lemma traverse_is_Ok {A B} (f : A → result B) l :
  (∀ a, a ∈ l → ∃ b, f a = Ok b) → ∃ bs, traverse f l = Ok bs.
Proof.
  induction l as [|a l IH]; intros H; simpl; [by eexists|].
  destruct (H a) as [b Hb]; [by left|]. rewrite Hb. simpl.
  destruct IH as [bs Hbs]; [intros a' Ha'; apply H; by right|].
  rewrite Hbs. simpl. by eexists.
Qed.

Lemma traverse_fmap {A B C} (f : B → result C) (h : A → B) l :
  traverse f (h <$> l) = traverse (fun a => f (h a)) l.
Proof.
  induction l as [|a l IH]; [done|].
  rewrite fmap_cons. cbn [traverse]. by rewrite IH.
Qed.

Lemma traverse_length {A B} (f : A → result B) l bs :
  traverse f l = Ok bs → length bs = length l.
Proof.
  intros H%traverse_Ok_Forall2. symmetry. by eapply Forall2_length.
Qed.

(** ** Dictionaries *)

Section Dict.
Context {V : Type}.
Implicit Types (d : dict V) (k : string) (v : V).

Lemma dict_get_elem d k v : dict_get d k = Some v → (k, v) ∈ d.
Proof.
  induction d as [|[k' v'] d IH]; simpl; [done|].
  destruct (String.eqb_spec k k') as [->|Hne].
  - intros [= ->]. left.
  - intros H. right. by apply IH.
Qed.

Lemma dict_get_None d k : dict_get d k = None ↔ k ∉ keys d.
Proof.
  unfold keys. induction d as [|[k' v'] d IH]; simpl.
  - split; [intros _; apply not_elem_of_nil | done].
  - destruct (String.eqb_spec k k') as [->|Hne].
    + split; [done|]. intros H. exfalso. apply H. left.
    + rewrite IH, not_elem_of_cons. naive_solver.
Qed.

Lemma dict_mem_keys d k : dict_mem d k = true ↔ k ∈ keys d.
Proof.
  unfold dict_mem. destruct (dict_get d k) as [v|] eqn:H.
  - split; [intros _|done].
    apply dict_get_elem in H. unfold keys.
    apply list_elem_of_fmap. by exists (k, v).
  - apply dict_get_None in H. split; [done|]. intros ?; contradiction.
Qed.

Lemma dict_mem_get d k : dict_mem d k = true → ∃ v, dict_get d k = Some v.
Proof.
  unfold dict_mem. destruct (dict_get d k) as [v|]; [by exists v|done].
Qed.

Lemma dict_getitem_Ok d k v : dict_get d k = Some v → dict_getitem d k = Ok v.
Proof. unfold dict_getitem. by intros ->. Qed.

Lemma dict_mem_false d k : dict_mem d k = false ↔ k ∉ keys d.
Proof.
  rewrite <- dict_mem_keys. destruct (dict_mem d k); naive_solver.
Qed.

Lemma dict_get_NoDup d k v :
  NoDup (keys d) → (k, v) ∈ d → dict_get d k = Some v.
Proof.
  unfold keys. induction d as [|[k' v'] d IH]; simpl; intros Hnd Hin.
  - by apply elem_of_nil in Hin.
  - apply NoDup_cons in Hnd as [Hk' Hnd].
    apply elem_of_cons in Hin as [[= -> ->]|Hin].
    + by rewrite String.eqb_refl.
    + destruct (String.eqb_spec k k') as [->|Hne]; [|by apply IH].
      exfalso. apply Hk'. apply list_elem_of_fmap. by exists (k', v).
Qed.

Lemma dict_set_keys_elem d k v k' :
  k' ∈ keys (dict_set d k v) ↔ k' = k ∨ k' ∈ keys d.
Proof.
  unfold keys. induction d as [|[k0 v0] d IH]; simpl.
  - rewrite list_elem_of_singleton. set_solver.
  - destruct (String.eqb_spec k k0) as [->|Hne]; simpl.
    + set_solver.
    + rewrite !elem_of_cons, IH. naive_solver.
Qed.

Lemma dict_set_fresh d k v : k ∉ keys d → dict_set d k v = d ++ [(k, v)].
Proof.
  unfold keys. induction d as [|[k0 v0] d IH]; simpl; [done|].
  intros [Hne Hd]%not_elem_of_cons.
  destruct (String.eqb_spec k k0) as [->|_]; [done|].
  by rewrite IH.
Qed.

Lemma dict_set_NoDup d k v : NoDup (keys d) → NoDup (keys (dict_set d k v)).
Proof.
  unfold keys. induction d as [|[k0 v0] d IH]; simpl.
  - intros _. apply NoDup_singleton.
  - intros [Hk0 Hnd]%NoDup_cons.
    destruct (String.eqb_spec k k0) as [->|Hne]; simpl.
    + by apply NoDup_cons.
    + apply NoDup_cons. split; [|by apply IH].
      intros [?|?]%(dict_set_keys_elem d k v k0); [congruence|done].
Qed.

Lemma dict_set_Forall (P : string * V → Prop) d k v :
  Forall P d → P (k, v) → Forall P (dict_set d k v).
Proof.
  induction d as [|[k0 v0] d IH]; simpl; intros Hd Hkv.
  - by constructor.
  - apply Forall_cons in Hd as [H0 Hd].
    destruct (String.eqb_spec k k0) as [->|Hne].
    + by constructor.
    + constructor; [done|]. by apply IH.
Qed.

Lemma dict_of_items_extend (kvs : list (string * V)) :
  dict_of_items kvs = dict_extend [] kvs.
Proof. done. Qed.

Lemma dict_extend_keys_elem d kvs k :
  k ∈ keys (dict_extend d kvs) ↔ k ∈ keys d ∨ k ∈ kvs.*1.
Proof.
  revert d. induction kvs as [|[k0 v0] kvs IH]; intros d; simpl.
  - set_solver.
  - unfold dict_extend in *. simpl. rewrite IH, dict_set_keys_elem. set_solver.
Qed.

Lemma dict_extend_NoDup d kvs :
  NoDup (keys d) → NoDup (keys (dict_extend d kvs)).
Proof.
  revert d. induction kvs as [|[k0 v0] kvs IH]; intros d Hd; simpl; [done|].
  apply IH. by apply dict_set_NoDup.
Qed.

Lemma dict_extend_Forall (P : string * V → Prop) d kvs :
  Forall P d → Forall P kvs → Forall P (dict_extend d kvs).
Proof.
  revert d. induction kvs as [|[k0 v0] kvs IH]; intros d Hd Hkvs; simpl; [done|].
  apply Forall_cons in Hkvs as [H0 Hkvs].
  apply IH; [|done]. by apply dict_set_Forall.
Qed.

Lemma dict_extend_fresh d kvs :
  NoDup (keys d ++ kvs.*1) → dict_extend d kvs = d ++ kvs.
Proof.
  revert d. induction kvs as [|[k0 v0] kvs IH]; intros d Hnd; simpl.
  - by rewrite app_nil_r.
  - assert (k0 ∉ keys d) as Hk0.
    { apply NoDup_app in Hnd as (_ & Hdisj & _).
      intros Hin. apply (Hdisj k0 Hin). simpl. left. }
    unfold dict_extend in *. simpl. rewrite dict_set_fresh by done.
    rewrite IH.
    + by rewrite <- app_assoc.
    + unfold keys in *. rewrite fmap_app. simpl.
      rewrite <- app_assoc. done.
Qed.

Lemma dict_of_items_keys_elem (kvs : list (string * V)) k :
  k ∈ keys (dict_of_items kvs) ↔ k ∈ kvs.*1.
Proof.
  rewrite dict_of_items_extend, dict_extend_keys_elem.
  unfold keys. set_solver.
Qed.

Lemma dict_of_items_NoDup (kvs : list (string * V)) : NoDup (keys (dict_of_items kvs)).
Proof. apply dict_extend_NoDup. apply NoDup_nil_2. Qed.

Lemma dict_of_items_Forall (P : string * V → Prop) kvs :
  Forall P kvs → Forall P (dict_of_items kvs).
Proof. intros H. by apply dict_extend_Forall. Qed.

Lemma dict_of_items_fresh (kvs : list (string * V)) :
  NoDup (kvs.*1) → dict_of_items kvs = kvs.
Proof. intros H. by rewrite dict_of_items_extend, dict_extend_fresh. Qed.

Lemma dict_get_app d1 d2 k :
  dict_get (d1 ++ d2) k
  = match dict_get d1 k with Some v => Some v | None => dict_get d2 k end.
Proof.
  induction d1 as [|[k' v'] d1 IH]; simpl; [done|].
  by destruct (String.eqb k k').
Qed.

Lemma dict_get_fmap {W} (h : V → W) d k :
  dict_get ((fun kv => (kv.1, h kv.2)) <$> d) k = h <$> dict_get d k.
Proof.
  induction d as [|[k' v'] d IH]; simpl; [done|].
  by destruct (String.eqb k k').
Qed.

Lemma traverse_getitem d (names : list string) :
  (∀ n, n ∈ names → dict_mem d n = true) →
  ∃ kvs,
    traverse (fun n => let? v := dict_getitem d n in Ok (n, v)) names = Ok kvs
    ∧ kvs.*1 = names
    ∧ Forall (fun kv => dict_get d kv.1 = Some kv.2) kvs.
Proof.
  induction names as [|n ns IH]; intros Hmem.
  - exists []. by repeat split.
  - destruct IH as (kvs & Hkvs & Hfst & Hall).
    { intros n' Hn'. apply Hmem. by right. }
    destruct (dict_mem_get d n) as [v Hv]; [apply Hmem; left|].
    cbn [traverse]. rewrite (dict_getitem_Ok _ _ _ Hv), Hkvs. simpl.
    exists ((n, v) :: kvs).
    split; [done|]. split; [simpl; by f_equal|]. by constructor.
Qed.

End Dict.

(** ** Field resolution at construction time *)

Section Resolution.
Variables (model_class : OrmModel) (entity_class : EntityClass)
          (primary_fields : option (gset string)).

Lemma default_items_Ok :
  ∃ kvs,
    traverse
      (fun field_name =>
         let? field := dict_getitem (columns model_class) field_name in
         Ok (field_name, field))
      (resolved_default_names model_class entity_class primary_fields) = Ok kvs
    ∧ kvs.*1 = (resolved_default_names model_class entity_class primary_fields)
    ∧ Forall (fun kv => dict_get (columns model_class) kv.1 = Some kv.2) kvs.
Proof.
  apply traverse_getitem. intros n [Hn _]%list_elem_of_filter.
  by apply andb_true_iff in Hn as [Hmem _].
Qed.

Lemma init_spec :
  ∃ u kvs,
    __init__ model_class entity_class primary_fields = Ok u
    ∧ _model_class u = model_class
    ∧ _entity_class u = entity_class
    ∧ _session u = None
    ∧ _primary_fields u = primary_fields
    ∧ _orm_model_fields u = columns model_class
    ∧ _primary_fields_by_name u = dict_of_items (resolved_primary model_class primary_fields)
    ∧ _default_update_fields_by_name u = dict_of_items kvs
    ∧ kvs.*1 = (resolved_default_names model_class entity_class primary_fields)
    ∧ Forall (fun kv => dict_get (columns model_class) kv.1 = Some kv.2) kvs.
Proof.
  destruct default_items_Ok as (kvs & Hkvs & Hfst & Hall).
  unfold __init__.
  fold (resolved_primary model_class primary_fields).
  fold (resolved_default_names model_class entity_class primary_fields).
  rewrite Hkvs. simpl. eexists _, kvs. by repeat split.
Qed.

Lemma primary_keys_elem u n :
  __init__ model_class entity_class primary_fields = Ok u →
  n ∈ keys (_primary_fields_by_name u)
  ↔ ∃ f, (n, f) ∈ columns model_class
         ∧ _is_primary_key primary_fields n f = true.
Proof.
  destruct init_spec as (u' & kvs & Hu' & _ & _ & _ & _ & _ & Hpk & _).
  rewrite Hu'. intros [= <-]. rewrite Hpk, dict_of_items_keys_elem.
  unfold resolved_primary, items. rewrite list_elem_of_fmap. split.
  - intros ([n' f] & -> & [H Hin]%list_elem_of_filter). by exists f.
  - intros (f & Hin & H). exists (n, f). split; [done|].
    by apply list_elem_of_filter.
Qed.

Lemma default_keys_elem u n :
  __init__ model_class entity_class primary_fields = Ok u →
  n ∈ keys (_default_update_fields_by_name u)
  ↔ n ∈ keys (columns model_class)
    ∧ n ∈ model_fields entity_class
    ∧ n ∉ keys (_primary_fields_by_name u).
Proof.
  destruct init_spec as (u' & kvs & Hu' & _ & _ & _ & _ & _ & Hpk & Hdef & Hfst & _).
  rewrite Hu'. intros [= <-].
  rewrite Hdef, dict_of_items_keys_elem, Hfst, Hpk.
  unfold resolved_default_names. rewrite list_elem_of_filter.
  rewrite andb_true_iff, negb_true_iff, dict_mem_keys, dict_mem_false.
  naive_solver.
Qed.

Lemma default_values u n f :
  __init__ model_class entity_class primary_fields = Ok u →
  dict_get (_default_update_fields_by_name u) n = Some f →
  dict_get (columns model_class) n = Some f.
Proof.
  destruct init_spec as (u' & kvs & Hu' & _ & _ & _ & _ & _ & _ & Hdef & _ & Hall).
  rewrite Hu'. intros [= <-] Hget%dict_get_elem.
  rewrite Hdef in Hget.
  apply (dict_of_items_Forall
           (fun kv => dict_get (columns model_class) kv.1 = Some kv.2)) in Hall.
  rewrite Forall_forall in Hall. by apply (Hall (n, f)).
Qed.

(** With a well-formed column collection the primary-key mapping is the
    row schema filtered, in the order of the row schema. *)
Lemma primary_fields_by_name_wf u :
  wf_columns (columns model_class) →
  __init__ model_class entity_class primary_fields = Ok u →
  _primary_fields_by_name u = (resolved_primary model_class primary_fields).
Proof.
  intros [Hnd _].
  destruct init_spec as (u' & kvs & Hu' & _ & _ & _ & _ & _ & Hpk & _).
  rewrite Hu'. intros [= <-]. rewrite Hpk.
  apply dict_of_items_fresh. unfold resolved_primary, items.
  unfold keys in Hnd. revert Hnd. generalize (columns model_class).
  intros cols. induction cols as [|[k c] cols IH]; simpl; [done|].
  intros [Hk Hnd]%NoDup_cons. rewrite filter_cons.
  case_decide; [|by apply IH]. simpl. apply NoDup_cons. split; [|by apply IH].
  intros ([k' c'] & -> & [_ Hin]%list_elem_of_filter)%list_elem_of_fmap.
  apply Hk. apply list_elem_of_fmap. by exists (k', c').
Qed.

End Resolution.

(** ** Per-call field filtering *)

Section Filtering.
Variable self : Updater.

Lemma clear_requested raw :
  ∃ kvs,
    _clear_update_fields self (Some raw) = Ok (dict_of_items kvs)
    ∧ kvs.*1 = kept_names self raw
    ∧ Forall (fun kv =>
                dict_get (_default_update_fields_by_name self) kv.1 = Some kv.2)
             kvs.
Proof.
  destruct (traverse_getitem (_default_update_fields_by_name self)
              (kept_names self raw)) as (kvs & Hkvs & Hfst & Hall).
  { intros n [Hn _]%list_elem_of_filter.
    by apply andb_true_iff in Hn as [_ Hmem]. }
  exists kvs. unfold _clear_update_fields. fold (kept_names self raw).
  rewrite Hkvs. done.
Qed.

Lemma clear_requested_keys raw d n :
  _clear_update_fields self (Some raw) = Ok d →
  n ∈ keys d
  ↔ n ∈ raw
    ∧ n ∈ keys (_default_update_fields_by_name self)
    ∧ n ∉ keys (_primary_fields_by_name self).
Proof.
  destruct (clear_requested raw) as (kvs & -> & Hfst & _).
  intros [= <-]. rewrite dict_of_items_keys_elem, Hfst.
  unfold kept_names. rewrite list_elem_of_filter.
  rewrite andb_true_iff, negb_true_iff, dict_mem_keys, dict_mem_false.
  naive_solver.
Qed.

Lemma clear_requested_values raw d n f :
  _clear_update_fields self (Some raw) = Ok d →
  dict_get d n = Some f →
  dict_get (_default_update_fields_by_name self) n = Some f.
Proof.
  destruct (clear_requested raw) as (kvs & -> & _ & Hall).
  intros [= <-] Hget%dict_get_elem.
  apply (dict_of_items_Forall
           (fun kv => dict_get (_default_update_fields_by_name self) kv.1
                      = Some kv.2)) in Hall.
  rewrite Forall_forall in Hall. by apply (Hall (n, f)).
Qed.

Lemma clear_is_Ok raw : ∃ d, _clear_update_fields self raw = Ok d.
Proof.
  destruct raw as [raw|]; [|by eexists].
  destruct (clear_requested raw) as (kvs & -> & _). by eexists.
Qed.

End Filtering.

(** The pure helper methods read the cached resolution data and never the
    session slot. *)
Lemma clear_set_session s u raw :
  _clear_update_fields (set_session s u) raw = _clear_update_fields u raw.
Proof. done. Qed.

Lemma build_values_set_session s u store entities d :
  _build_virtual_table_with_values_to_update (set_session s u) store entities d
  = _build_virtual_table_with_values_to_update u store entities d.
Proof. done. Qed.

Lemma build_statement_set_session s u store entities d v :
  _build_update_statement (set_session s u) store entities d v
  = _build_update_statement u store entities d v.
Proof. done. Qed.

Lemma single_lookup_set_session s u store entity :
  _build_single_lookup_expr_for_table (set_session s u) store entity
  = _build_single_lookup_expr_for_table u store entity.
Proof. done. Qed.

(** ** An updater built by [__init__] over a well-formed row schema *)

Section Configured.
Variables (model_class : OrmModel) (entity_class : EntityClass)
          (primary_fields : option (gset string)) (u : Updater).
Hypothesis Hwf : wf_columns (columns model_class).
Hypothesis Hinit : __init__ model_class entity_class primary_fields = Ok u.

Lemma configured_model : _model_class u = model_class.
Proof.
  destruct (init_spec model_class entity_class primary_fields)
    as (u' & kvs & Hu' & H & _).
  rewrite Hu' in Hinit. by injection Hinit as <-.
Qed.

Lemma configured_orm : _orm_model_fields u = columns model_class.
Proof.
  destruct (init_spec model_class entity_class primary_fields)
    as (u' & kvs & Hu' & _ & _ & _ & _ & H & _).
  rewrite Hu' in Hinit. by injection Hinit as <-.
Qed.

Lemma configured_primary :
  _primary_fields_by_name u = resolved_primary model_class primary_fields.
Proof. by eapply primary_fields_by_name_wf. Qed.

Lemma configured_primary_Forall :
  Forall (fun kf => key kf.2 = kf.1
                    ∧ dict_get (columns model_class) kf.1 = Some kf.2)
         (_primary_fields_by_name u).
Proof.
  rewrite configured_primary. unfold resolved_primary, items.
  apply Forall_forall. intros [n f] [_ Hin]%list_elem_of_filter.
  destruct Hwf as [Hnd Hkey]. rewrite Forall_forall in Hkey.
  split; [by apply (Hkey (n, f))|]. by apply dict_get_NoDup.
Qed.

Lemma configured_primary_NoDup : NoDup (keys (_primary_fields_by_name u)).
Proof.
  destruct (init_spec model_class entity_class primary_fields)
    as (u' & kvs & Hu' & _ & _ & _ & _ & _ & H & _).
  rewrite Hu' in Hinit. injection Hinit as <-. rewrite H.
  apply dict_of_items_NoDup.
Qed.

Lemma configured_default_NoDup :
  NoDup (keys (_default_update_fields_by_name u)).
Proof.
  destruct (init_spec model_class entity_class primary_fields)
    as (u' & kvs & Hu' & _ & _ & _ & _ & _ & _ & H & _).
  rewrite Hu' in Hinit. injection Hinit as <-. rewrite H.
  apply dict_of_items_NoDup.
Qed.

(** What every resolved update mapping satisfies. *)
Lemma configured_resolved raw d :
  _clear_update_fields u raw = Ok d →
  NoDup (keys d)
  ∧ Forall (fun kv => dict_get (columns model_class) kv.1 = Some kv.2) d
  ∧ (∀ n, n ∈ keys d → n ∈ model_fields entity_class)
  ∧ (∀ n, n ∈ keys d → n ∉ keys (_primary_fields_by_name u)).
Proof.
  destruct raw as [raw|].
  - intros Hd. destruct (clear_requested u raw) as (kvs & Hkvs & Hfst & Hall).
    rewrite Hkvs in Hd. injection Hd as <-.
    split; [apply dict_of_items_NoDup|]. split.
    + apply dict_of_items_Forall. eapply Forall_impl; [exact Hall|].
      intros [n f] H. simpl in *. by eapply default_values.
    + split; intros n Hn; rewrite dict_of_items_keys_elem, Hfst in Hn;
        apply list_elem_of_filter in Hn as [Hn _];
        apply andb_true_iff in Hn as [Hpk Hdef].
      * apply dict_mem_keys in Hdef.
        by apply (default_keys_elem _ _ _ _ _ Hinit) in Hdef as (_ & ? & _).
      * apply negb_true_iff in Hpk. by apply dict_mem_false.
  - simpl. intros [= <-]. split; [apply configured_default_NoDup|]. split.
    + apply Forall_forall. intros [n f] Hin. simpl.
      eapply default_values; [exact Hinit|].
      apply dict_get_NoDup; [apply configured_default_NoDup|done].
    + split; intros n Hn;
        by apply (default_keys_elem _ _ _ _ _ Hinit) in Hn as (? & ? & ?).
Qed.

End Configured.

(** ** The virtual row-set *)

Lemma getattr_instance store entity_class r n :
  instance_of store entity_class r →
  n ∈ model_fields entity_class →
  getattr store r n = Ok (attr_value store r n).
Proof.
  unfold instance_of, attr_value, getattr.
  destruct (store !! r) as [ent|]; [|done]. intros Hfields Hn.
  destruct (dict_get (instance_dict ent) n) as [v|] eqn:Hv; [done|].
  apply dict_get_None in Hv. by apply Hfields in Hn.
Qed.

Lemma build_values_inv self store entities d v :
  _build_virtual_table_with_values_to_update self store entities d = Ok v →
  values_name v = "new_data"
  ∧ values_columns v
    = (fun kf => (kf.1, type_ kf.2)) <$> (_primary_fields_by_name self ++ d)
  ∧ Forall2
      (fun r row =>
         Forall2
           (fun n cell =>
              ∃ value field,
                getattr store r n = Ok value
                ∧ dict_get (_orm_model_fields self) n = Some field
                ∧ cell = cell_spec (type_ field) value)
           (keys (_primary_fields_by_name self) ++ keys d) row)
      entities (values_data v).
Proof.
  unfold _build_virtual_table_with_values_to_update.
  destruct (traverse _ entities) as [data|] eqn:Hdata; simpl; [|done].
  intros [= <-]. simpl. split; [done|]. split; [done|].
  apply traverse_Ok_Forall2 in Hdata.
  eapply Forall2_impl; [exact Hdata|]. intros r row Hrow. simpl in Hrow.
  apply traverse_Ok_Forall2 in Hrow.
  eapply Forall2_impl; [exact Hrow|]. intros n cell Hcell. simpl in Hcell.
  destruct (getattr store r n) as [value|]; simpl in Hcell; [|done].
  unfold dict_getitem in Hcell.
  destruct (dict_get (_orm_model_fields self) n) as [field|]; simpl in Hcell;
    [|done].
  injection Hcell as <-. exists value, field. by destruct value.
Qed.

Lemma build_values_is_Ok self store entities d :
  (∀ r n, r ∈ entities →
          n ∈ keys (_primary_fields_by_name self) ++ keys d →
          ∃ value, getattr store r n = Ok value) →
  (∀ n, n ∈ keys (_primary_fields_by_name self) ++ keys d →
        n ∈ keys (_orm_model_fields self)) →
  ∃ v, _build_virtual_table_with_values_to_update self store entities d = Ok v.
Proof.
  intros Hattr Horm. unfold _build_virtual_table_with_values_to_update.
  destruct (traverse_is_Ok
    (fun entity =>
       traverse
         (fun field_name =>
            let? value := getattr store entity field_name in
            let? field := dict_getitem (_orm_model_fields self) field_name in
            Ok (if is_None value then NullCast (type_ field) else Raw value))
         (keys (_primary_fields_by_name self) ++ keys d)) entities)
    as [data Hdata].
  - intros r Hr. apply traverse_is_Ok. intros n Hn.
    destruct (Hattr r n Hr Hn) as [value ->]. simpl.
    destruct (dict_mem_get (_orm_model_fields self) n) as [field Hfield].
    { apply dict_mem_keys. by apply Horm. }
    rewrite (dict_getitem_Ok _ _ _ Hfield). simpl. by eexists.
  - rewrite Hdata. simpl. by eexists.
Qed.

(** ** The statement built for a batch *)

Section Pipeline.
Variables (model_class : OrmModel) (entity_class : EntityClass)
          (primary_fields : option (gset string)) (u : Updater).
Variables (store : list Entity) (entities : list EntityRef).
Variables (raw : option (list string)) (d : dict Column).
Hypothesis Hwf : wf_columns (columns model_class).
Hypothesis Hinit : __init__ model_class entity_class primary_fields = Ok u.
Hypothesis Hkeys :
  keys (_primary_fields_by_name u) ⊆ model_fields entity_class.
Hypothesis Hinst : Forall (instance_of store entity_class) entities.
Hypothesis Hd : _clear_update_fields u raw = Ok d.

Lemma pipeline_names n :
  n ∈ keys (_primary_fields_by_name u) ++ keys d →
  n ∈ model_fields entity_class.
Proof.
  destruct (configured_resolved _ _ _ _ Hinit _ _ Hd) as (_ & _ & Hin & _).
  intros [?|?]%elem_of_app; auto.
Qed.

Lemma pipeline_columns n :
  n ∈ keys (_primary_fields_by_name u) ++ keys d →
  n ∈ keys (_orm_model_fields u).
Proof.
  rewrite (configured_orm _ _ _ _ Hinit).
  destruct (configured_resolved _ _ _ _ Hinit _ _ Hd) as (_ & Hall & _ & _).
  pose proof (configured_primary_Forall _ _ _ _ Hwf Hinit) as Hpk.
  rewrite Forall_forall in Hall, Hpk. unfold keys.
  intros [Hn|Hn]%elem_of_app; apply list_elem_of_fmap in Hn as ([n' f] & -> & Hin).
  - destruct (Hpk _ Hin) as [_ Hget]. apply dict_get_elem in Hget.
    apply list_elem_of_fmap. by exists (n', f).
  - pose proof (Hall _ Hin) as Hget. apply dict_get_elem in Hget.
    apply list_elem_of_fmap. by exists (n', f).
Qed.

Lemma pipeline_values_Ok :
  ∃ v, _build_virtual_table_with_values_to_update u store entities d = Ok v.
Proof.
  apply build_values_is_Ok; [|apply pipeline_columns].
  intros r n Hr Hn. eexists. eapply getattr_instance;
    [rewrite Forall_forall in Hinst; by apply Hinst|].
  by apply pipeline_names.
Qed.

Lemma pipeline_many :
  _build_many_lookup_expr_for_table u store entities
  = Ok (many_lookup_spec (vals (_primary_fields_by_name u)) store entities).
Proof.
  unfold _build_many_lookup_expr_for_table, many_lookup_spec.
  erewrite traverse_total; [done|].
  intros f Hf. simpl.
  erewrite traverse_total; [done|].
  intros r Hr. simpl. eapply getattr_instance;
    [rewrite Forall_forall in Hinst; by apply Hinst|].
  apply Hkeys. unfold vals, keys in *.
  apply list_elem_of_fmap in Hf as ([n f'] & -> & Hin).
  pose proof (configured_primary_Forall _ _ _ _ Hwf Hinit) as Hpk.
  rewrite Forall_forall in Hpk. destruct (Hpk _ Hin) as [Hkey _].
  simpl in *. rewrite Hkey. apply list_elem_of_fmap. by exists (n, f').
Qed.

Lemma pipeline_join v :
  values_columns v
  = (fun kf => (kf.1, type_ kf.2)) <$> (_primary_fields_by_name u ++ d) →
  _build_lookup_expr_for_join_table_and_values u v
  = Ok (join_spec (vals (_primary_fields_by_name u)) v).
Proof.
  intros Hcols.
  unfold _build_lookup_expr_for_join_table_and_values, join_spec.
  erewrite traverse_total; [done|].
  intros f Hf. simpl. unfold vals in Hf.
  apply list_elem_of_fmap in Hf as ([n f'] & -> & Hin).
  pose proof (configured_primary_Forall _ _ _ _ Hwf Hinit) as Hpk.
  rewrite Forall_forall in Hpk. destruct (Hpk _ Hin) as [Hkey _].
  simpl in *. unfold values_c.
  rewrite Hcols, dict_get_fmap, dict_get_app, Hkey.
  rewrite (dict_get_NoDup _ n f'); [done| |done].
  by eapply configured_primary_NoDup.
Qed.

Lemma pipeline_set v :
  values_columns v
  = (fun kf => (kf.1, type_ kf.2)) <$> (_primary_fields_by_name u ++ d) →
  traverse
    (fun field_name =>
       let? c := values_c v field_name in Ok (field_name, c))
    (keys d)
  = Ok (set_spec d v).
Proof.
  intros Hcols. unfold keys, set_spec. rewrite traverse_fmap.
  apply traverse_total. intros [n f] Hin. simpl.
  destruct (configured_resolved _ _ _ _ Hinit _ _ Hd) as (Hnd & _ & _ & Hdisj).
  unfold values_c. rewrite Hcols, dict_get_fmap, dict_get_app.
  assert (n ∈ keys d) as Hn by (apply list_elem_of_fmap; by exists (n, f)).
  apply Hdisj, dict_get_None in Hn. rewrite Hn.
  by rewrite (dict_get_NoDup _ n f).
Qed.

Lemma set_spec_keys v : keys (set_spec d v) = keys d.
Proof.
  unfold keys, set_spec. rewrite <- list_fmap_compose.
  by apply list_fmap_ext.
Qed.

Lemma pipeline_statement v :
  _build_virtual_table_with_values_to_update u store entities d = Ok v →
  _build_update_statement u store entities d v
  = Ok {| table := model_class;
          whereclause :=
            And_ [many_lookup_spec (vals (_primary_fields_by_name u))
                                   store entities;
                  join_spec (vals (_primary_fields_by_name u)) v];
          set_values := set_spec d v |}.
Proof.
  intros (_ & Hcols & _)%build_values_inv.
  unfold _build_update_statement.
  rewrite pipeline_many. simpl.
  rewrite (pipeline_join v Hcols). simpl.
  rewrite (pipeline_set v Hcols). simpl.
  rewrite (configured_model _ _ _ _ Hinit).
  rewrite dict_of_items_fresh; [done|].
  destruct (configured_resolved _ _ _ _ Hinit _ _ Hd) as (Hnd & _).
  fold (keys (set_spec d v)). by rewrite set_spec_keys.
Qed.

End Pipeline.

(** ** The public methods *)

Section Frame.
Variable db_raises : Session → Update → option exn.

(** A call of either update method leaves the updater instances and the
    entity instances as they were, and sends at most one statement. *)
Lemma update_from_entities_frame self entities raw w :
  updaters (update_from_entities db_raises self entities raw w).2 = updaters w
  ∧ entities_of (update_from_entities db_raises self entities raw w).2
    = entities_of w
  ∧ (executed (update_from_entities db_raises self entities raw w).2
     = executed w
     ∨ ∃ s stmt,
         executed (update_from_entities db_raises self entities raw w).2
         = executed w ++ [(s, stmt)]).
Proof.
  unfold update_from_entities.
  destruct (Nat.eqb (length entities) 0); [simpl; auto|].
  unfold mbind, slots, get_world, lift, execute, mret.
  destruct (updaters w !! self) as [u|]; [|simpl; auto].
  destruct (_clear_update_fields u raw) as [d|]; [|simpl; auto].
  destruct (_build_virtual_table_with_values_to_update _ _ _ _) as [v|];
    [|simpl; auto].
  destruct (_build_update_statement _ _ _ _ _) as [stmt|]; [|simpl; auto].
  destruct (session_of u) as [s|]; [|simpl; auto].
  destruct (db_raises s stmt); simpl; (do 2 (split; [done|])); right; eauto.
Qed.

Lemma update_from_entity_frame self entity raw w :
  updaters (update_from_entity db_raises self entity raw w).2 = updaters w
  ∧ entities_of (update_from_entity db_raises self entity raw w).2
    = entities_of w
  ∧ (executed (update_from_entity db_raises self entity raw w).2 = executed w
     ∨ ∃ s stmt,
         executed (update_from_entity db_raises self entity raw w).2
         = executed w ++ [(s, stmt)]).
Proof.
  unfold update_from_entity.
  unfold mbind, slots, get_world, lift, execute, mret.
  destruct (updaters w !! self) as [u|]; [|simpl; auto].
  destruct (_clear_update_fields u raw) as [d|]; [|simpl; auto].
  destruct (_build_single_lookup_expr_for_table _ _ _) as [e|]; [|simpl; auto].
  destruct (traverse _ (keys d)) as [kvs|]; [|simpl; auto].
  destruct (session_of u) as [s|]; [|simpl; auto].
  destruct (db_raises s _); simpl; (do 2 (split; [done|])); right; eauto.
Qed.

End Frame.

(** Binding changes the session slot of one instance and nothing else. *)
Lemma call_spec self session w :
  (__call__ self session w).1 = Ok self
  ∧ updaters (__call__ self session w).2 !! self
    = set_session session <$> updaters w !! self
  ∧ (∀ r, r ≠ self →
          updaters (__call__ self session w).2 !! r = updaters w !! r)
  ∧ entities_of (__call__ self session w).2 = entities_of w
  ∧ executed (__call__ self session w).2 = executed w.
Proof.
  unfold __call__. simpl. split; [done|]. split.
  - apply list_lookup_alter_eq.
  - split; [|done]. intros r Hr. by apply list_lookup_alter_ne.
Qed.

Section Run.
Variable db_raises : Session → Update → option exn.
Variables (model_class : OrmModel) (entity_class : EntityClass)
          (primary_fields : option (gset string)) (u : Updater).
Variables (self : UpdaterRef) (session : Session) (w : World).
Hypothesis Hwf : wf_columns (columns model_class).
Hypothesis Hinit : __init__ model_class entity_class primary_fields = Ok u.
Hypothesis Hkeys :
  keys (_primary_fields_by_name u) ⊆ model_fields entity_class.
Hypothesis Hself : updaters w !! self = Some (set_session session u).

(** A bound, configured updater and a non-empty batch of live entities:
    the statement is built and goes to the bound session. *)
Lemma update_from_entities_run entities raw :
  entities ≠ [] →
  Forall (instance_of (entities_of w) entity_class) entities →
  ∃ d v,
    _clear_update_fields u raw = Ok d
    ∧ _build_virtual_table_with_values_to_update u (entities_of w) entities d
      = Ok v
    ∧ let stmt :=
        {| table := model_class;
           whereclause :=
             And_ [many_lookup_spec (vals (_primary_fields_by_name u))
                                    (entities_of w) entities;
                   join_spec (vals (_primary_fields_by_name u)) v];
           set_values := set_spec d v |} in
      update_from_entities db_raises self entities raw w
      = (outcome (db_raises session stmt) (Some entities),
         logged w session stmt).
Proof.
  intros Hne Hinst.
  destruct (clear_is_Ok u raw) as [d Hd].
  destruct (pipeline_values_Ok _ _ _ _ _ _ _ _ Hwf Hinit Hkeys Hinst Hd)
    as [v Hv].
  exists d, v. split; [done|]. split; [done|]. simpl.
  unfold update_from_entities.
  destruct entities as [|r rs]; [done|]. cbn [length Nat.eqb].
  unfold mbind, slots, get_world, lift, execute, mret. rewrite Hself.
  rewrite clear_set_session, Hd.
  rewrite build_values_set_session, Hv.
  rewrite build_statement_set_session.
  rewrite (pipeline_statement _ _ _ _ _ _ _ _ Hwf Hinit Hkeys Hinst Hd v Hv).
  simpl. by destruct (db_raises session _).
Qed.

Lemma update_from_entity_run entity raw :
  instance_of (entities_of w) entity_class entity →
  ∃ d,
    _clear_update_fields u raw = Ok d
    ∧ let stmt :=
        {| table := model_class;
           whereclause :=
             single_lookup_spec (vals (_primary_fields_by_name u))
                                (entities_of w) entity;
           set_values := single_set_spec d (entities_of w) entity |} in
      update_from_entity db_raises self entity raw w
      = (outcome (db_raises session stmt) entity, logged w session stmt).
Proof.
  intros Hinst.
  destruct (clear_is_Ok u raw) as [d Hd]. exists d. split; [done|]. simpl.
  destruct (configured_resolved _ _ _ _ Hinit _ _ Hd) as (Hnd & _ & Hin & _).
  unfold update_from_entity.
  unfold mbind, slots, get_world, lift, execute, mret. rewrite Hself.
  rewrite clear_set_session, Hd.
  assert (_build_single_lookup_expr_for_table (set_session session u)
            (entities_of w) entity
          = Ok (single_lookup_spec (vals (_primary_fields_by_name u))
                                   (entities_of w) entity)) as ->.
  { unfold _build_single_lookup_expr_for_table, single_lookup_spec. simpl.
    erewrite traverse_total; [done|].
    intros f Hf. simpl. erewrite getattr_instance; [done|exact Hinst|].
    apply Hkeys. unfold vals, keys in *.
    apply list_elem_of_fmap in Hf as ([n f'] & -> & Hf).
    pose proof (configured_primary_Forall _ _ _ _ Hwf Hinit) as Hpk.
    rewrite Forall_forall in Hpk. destruct (Hpk _ Hf) as [Hkey _].
    simpl in *. rewrite Hkey. apply list_elem_of_fmap. by exists (n, f'). }
  assert (traverse
            (fun field_name =>
               let? v := getattr (entities_of w) entity field_name in
               Ok (field_name, Param v))
            (keys d)
          = Ok (single_set_spec d (entities_of w) entity)) as ->.
  { unfold keys, single_set_spec. rewrite traverse_fmap.
    apply traverse_total. intros [n f] Hnf. simpl.
    erewrite getattr_instance; [done|exact Hinst|].
    apply Hin. apply list_elem_of_fmap. by exists (n, f). }
  simpl. rewrite dict_of_items_fresh.
  - rewrite (configured_model _ _ _ _ Hinit).
    by destruct (db_raises session _).
  - unfold single_set_spec. rewrite <- list_fmap_compose.
    unfold keys in Hnd. erewrite list_fmap_ext; [exact Hnd|]. done.
Qed.

End Run.

(** ** What the public methods return *)

Section Returns.
Variable db_raises : Session → Update → option exn.

Lemma update_from_entity_result self entity raw w x :
  (update_from_entity db_raises self entity raw w).1 = Ok x → x = entity.
Proof.
  unfold update_from_entity.
  unfold mbind, slots, get_world, lift, execute, mret.
  destruct (updaters w !! self) as [u|]; [|done].
  destruct (_clear_update_fields u raw) as [d|]; [|done].
  destruct (_build_single_lookup_expr_for_table _ _ _) as [e|]; [|done].
  destruct (traverse _ (keys d)) as [kvs|]; [|done].
  destruct (session_of u) as [s|]; [|done].
  destruct (db_raises s _); simpl; congruence.
Qed.

Lemma update_from_entities_result self entities raw w x :
  (update_from_entities db_raises self entities raw w).1 = Ok x →
  x = match entities with [] => None | _ :: _ => Some entities end.
Proof.
  unfold update_from_entities.
  destruct entities as [|r rs]; cbn [length Nat.eqb]; [by intros [= <-]|].
  unfold mbind, slots, get_world, lift, execute, mret.
  destruct (updaters w !! self) as [u|]; [|done].
  destruct (_clear_update_fields u raw) as [d|]; [|done].
  destruct (_build_virtual_table_with_values_to_update _ _ _ _) as [v|];
    [|done].
  destruct (_build_update_statement _ _ _ _ _) as [stmt|]; [|done].
  destruct (session_of u) as [s|]; [|done].
  destruct (db_raises s stmt); simpl; congruence.
Qed.

End Returns.

(** The SET clause of a built statement names update fields only. *)
Lemma build_statement_set_keys self store entities d v stmt n :
  _build_update_statement self store entities d v = Ok stmt →
  n ∈ keys (set_values stmt) → n ∈ keys d.
Proof.
  unfold _build_update_statement.
  destruct (_build_many_lookup_expr_for_table _ _ _) as [many|]; [|done].
  destruct (_build_lookup_expr_for_join_table_and_values _ _) as [join|];
    [|done].
  simpl. destruct (traverse _ (keys d)) as [kvs|] eqn:Hkvs; [|done].
  simpl. intros [= <-]. simpl. rewrite dict_of_items_keys_elem.
  apply traverse_Ok_Forall2 in Hkvs.
  assert (kvs.*1 = keys d) as ->; [|done].
  clear -Hkvs. induction Hkvs as [|k kv ks kvs Hk _ IH]; [done|].
  simpl. f_equal; [|done].
  destruct (values_c v k); simpl in Hk; [|done]. by injection Hk as <-.
Qed.

(** Binding keeps the cached resolution data of every instance. *)
Lemma call_keeps_cache self session w :
  (fun u => (_primary_fields_by_name u, _default_update_fields_by_name u))
    <$> updaters (__call__ self session w).2
  = (fun u => (_primary_fields_by_name u, _default_update_fields_by_name u))
    <$> updaters w.
Proof.
  unfold __call__. simpl. apply list_eq. intros i.
  rewrite !list_lookup_fmap.
  destruct (decide (i = self)) as [->|Hne].
  - rewrite list_lookup_alter_eq.
    destruct (@lookup nat Updater (list Updater) _ self (updaters w));
      reflexivity.
  - by rewrite list_lookup_alter_ne.
Qed.

(** * The claims *)

(** ** Construction *)

(** C1, as stated, does not hold.  The claim says that construction fails
    whenever no row-schema field resolves to a primary-key field.
    [__init__] has no such check: for a table without a declared primary
    key it returns an instance. *)
Lemma construction_without_key_is_accepted :
  ¬ (∀ model_class entity_class primary_fields,
       resolved_primary model_class primary_fields = [] →
       ∃ e, __init__ model_class entity_class primary_fields = Raise e).
Proof.
  intros H.
  destruct (H audit_model audit_entity None eq_refl) as [e He].
  vm_compute in He. discriminate He.
Qed.

(** C1, amended: for every configuration in which no row-schema field
    resolves to a primary-key field, construction succeeds; the instance
    has an empty primary-key mapping and an unbound session, and nothing is
    raised at construction time. *)
Theorem construction_without_key_succeeds
    model_class entity_class primary_fields :
  resolved_primary model_class primary_fields = [] →
  ∃ u, __init__ model_class entity_class primary_fields = Ok u
       ∧ _primary_fields_by_name u = []
       ∧ _session u = None.
Proof.
  intros Hempty.
  destruct (init_spec model_class entity_class primary_fields)
    as (u & kvs & Hu & _ & _ & Hs & _ & _ & Hpk & _).
  exists u. split; [done|]. split; [|done]. by rewrite Hpk, Hempty.
Qed.

Lemma construction_without_key_succeeds_witness :
  resolved_primary audit_model None = []
  ∧ ∃ u, __init__ audit_model audit_entity None = Ok u
         ∧ _primary_fields_by_name u = []
         ∧ _session u = None.
Proof.
  split; [reflexivity|].
  apply (construction_without_key_succeeds audit_model audit_entity None).
  reflexivity.
Defined.

(** C8: [__init__] always returns an instance.  A name is a key of its
    primary-key mapping iff the row schema has a field of that name which
    is in the explicit set when one is given, and which the row schema
    flags as primary key otherwise.  A name is a key of its default update
    mapping iff it is a row-schema field and an entity field and not a
    primary-key field, and it is mapped to the row-schema column; no name
    is in both mappings.  Binding and both update methods leave the two
    mappings of every instance as they are, and a call without requested
    fields reads the cached default mapping. *)
Theorem field_resolution_at_construction
    model_class entity_class primary_fields :
  ∃ u,
    __init__ model_class entity_class primary_fields = Ok u
    ∧ (∀ n, n ∈ keys (_primary_fields_by_name u)
            ↔ ∃ f, (n, f) ∈ columns model_class
                   ∧ match primary_fields with
                     | Some pf => n ∈ pf
                     | None => primary_key f = true
                     end)
    ∧ (∀ n, n ∈ keys (_default_update_fields_by_name u)
            ↔ n ∈ keys (columns model_class)
              ∧ n ∈ model_fields entity_class
              ∧ n ∉ keys (_primary_fields_by_name u))
    ∧ (∀ n f, dict_get (_default_update_fields_by_name u) n = Some f →
              dict_get (columns model_class) n = Some f)
    ∧ (∀ n, ¬ (n ∈ keys (_primary_fields_by_name u)
               ∧ n ∈ keys (_default_update_fields_by_name u)))
    ∧ _clear_update_fields u None = Ok (_default_update_fields_by_name u)
    ∧ (∀ self session w,
         (fun u => (_primary_fields_by_name u,
                    _default_update_fields_by_name u))
           <$> updaters (__call__ self session w).2
         = (fun u => (_primary_fields_by_name u,
                      _default_update_fields_by_name u))
           <$> updaters w)
    ∧ (∀ db_raises self entity raw w,
         updaters (update_from_entity db_raises self entity raw w).2
         = updaters w)
    ∧ (∀ db_raises self entities raw w,
         updaters (update_from_entities db_raises self entities raw w).2
         = updaters w).
Proof.
  destruct (init_spec model_class entity_class primary_fields)
    as (u & kvs & Hu & _).
  exists u. split; [done|]. split.
  { intros n. rewrite (primary_keys_elem _ _ _ _ _ Hu).
    unfold _is_primary_key. destruct primary_fields as [pf|]; [|done].
    split; intros (f & Hin & H); exists f; (split; [done|]).
    - by apply bool_decide_eq_true in H.
    - by apply bool_decide_eq_true. }
  split; [intros n; apply (default_keys_elem _ _ _ u n Hu)|].
  split; [intros n f; apply (default_values _ _ _ u n f Hu)|].
  split.
  { intros n [Hpk Hdef].
    by apply (default_keys_elem _ _ _ _ _ Hu) in Hdef as (_ & _ & ?). }
  split; [done|].
  split; [apply call_keeps_cache|].
  split.
  - intros db_raises self entity raw w.
    by destruct (update_from_entity_frame db_raises self entity raw w).
  - intros db_raises self entities raw w.
    by destruct (update_from_entities_frame db_raises self entities raw w).
Qed.

(** ** Per-call field filtering *)

(** C4: for an instance built by [__init__], resolution without requested
    fields returns the default update mapping.  With requested fields it
    never raises, and a name is a key of the result iff it was requested,
    is a default update field and is not a primary-key field; the name is
    mapped to the column of the default mapping.  Whatever was requested,
    the SET clause of a statement built from the resolved fields names
    resolved fields only, and none of them is a primary-key field. *)
Theorem update_field_resolution
    model_class entity_class primary_fields u :
  __init__ model_class entity_class primary_fields = Ok u →
  _clear_update_fields u None = Ok (_default_update_fields_by_name u)
  ∧ (∀ raw, ∃ d,
       _clear_update_fields u (Some raw) = Ok d
       ∧ (∀ n, n ∈ keys d
               ↔ n ∈ raw
                 ∧ n ∈ keys (_default_update_fields_by_name u)
                 ∧ n ∉ keys (_primary_fields_by_name u))
       ∧ (∀ n f, dict_get d n = Some f →
                 dict_get (_default_update_fields_by_name u) n = Some f))
  ∧ (∀ raw d store entities v stmt n,
       _clear_update_fields u raw = Ok d →
       _build_update_statement u store entities d v = Ok stmt →
       n ∈ keys (set_values stmt) →
       n ∈ keys d ∧ n ∉ keys (_primary_fields_by_name u)).
Proof.
  intros Hu. split; [done|]. split.
  - intros raw. destruct (clear_is_Ok u (Some raw)) as [d Hd]. exists d.
    split; [done|]. split.
    + intros n. apply (clear_requested_keys u raw d n Hd).
    + intros n f. apply (clear_requested_values u raw d n f Hd).
  - intros raw d store entities v stmt n Hd Hstmt Hn.
    apply (build_statement_set_keys _ _ _ _ _ _ _ Hstmt) in Hn.
    split; [done|].
    destruct (configured_resolved _ _ _ _ Hu _ _ Hd) as (_ & _ & _ & Hdisj).
    by apply Hdisj.
Qed.

Lemma update_field_resolution_witness :
  __init__ order_model order_entity None = Ok order_updater
  ∧ ∃ d,
      _clear_update_fields order_updater (Some ["order_id"; "total"; "colour"])
      = Ok d
      ∧ (∀ n, n ∈ keys d
              ↔ n ∈ ["order_id"; "total"; "colour"]
                ∧ n ∈ keys (_default_update_fields_by_name order_updater)
                ∧ n ∉ keys (_primary_fields_by_name order_updater))
      ∧ (∀ n f, dict_get d n = Some f →
                dict_get (_default_update_fields_by_name order_updater) n
                = Some f).
Proof.
  split; [reflexivity|].
  apply (update_field_resolution order_model order_entity None order_updater).
  reflexivity.
Defined.

(** ** Bulk update *)

(** C2: for the empty entity list [update_from_entities] returns [None],
    the empty-result sentinel, and leaves the world as it was: nothing is
    sent to any session, whatever the updater and the requested fields. *)
Theorem empty_batch_returns_sentinel db_raises self raw w :
  update_from_entities db_raises self [] raw w = (Ok None, w).
Proof. reflexivity. Qed.

(** C3: for a configured updater bound to a session, and every non-empty
    list of live entities that carry the primary-key fields, the call of
    [update_from_entities] sends exactly one statement to the bound
    session, whatever the length of the list, the requested fields and
    the answer of the database. *)
Theorem non_empty_batch_one_statement
    db_raises model_class entity_class primary_fields u
    self session w entities raw :
  wf_columns (columns model_class) →
  __init__ model_class entity_class primary_fields = Ok u →
  keys (_primary_fields_by_name u) ⊆ model_fields entity_class →
  updaters w !! self = Some (set_session session u) →
  entities ≠ [] →
  Forall (instance_of (entities_of w) entity_class) entities →
  ∃ stmt,
    executed (update_from_entities db_raises self entities raw w).2
    = executed w ++ [(session, stmt)].
Proof.
  intros Hwf Hu Hkeys Hself Hne Hinst.
  destruct (update_from_entities_run db_raises _ _ _ _ _ _ _
              Hwf Hu Hkeys Hself entities raw Hne Hinst)
    as (d & v & _ & _ & Hrun).
  simpl in Hrun. rewrite Hrun. simpl. by eexists.
Qed.

Lemma non_empty_batch_one_statement_witness :
  ∃ stmt,
    executed
      (update_from_entities accepting_db 0 [0; 1] None
         (__call__ 0 7 order_world).2).2
    = [] ++ [(7, stmt)].
Proof.
  apply (non_empty_batch_one_statement accepting_db
           order_model order_entity None order_updater
           0 7 (__call__ 0 7 order_world).2 [0; 1] None).
  - apply (bool_decide_unpack _). vm_compute. exact I.
  - reflexivity.
  - apply (bool_decide_unpack _). vm_compute. exact I.
  - reflexivity.
  - discriminate.
  - apply (bool_decide_unpack _). vm_compute. exact I.
Defined.

(** ** The virtual row-set *)

Lemma Forall_Forall2_l {A B} (P : A → Prop) (Q : A → B → Prop) l k :
  Forall P l → Forall2 Q l k → Forall2 (fun a b => P a ∧ Q a b) l k.
Proof.
  intros HP HQ. induction HQ as [|a b l k Hab _ IH]; [constructor|].
  apply Forall_cons in HP as [Ha HP]. constructor; auto.
Qed.

(** The rows of the row-set, cell by cell against the row-set schema. *)
Lemma pipeline_rows
    model_class entity_class primary_fields u store entities raw d v :
  wf_columns (columns model_class) →
  __init__ model_class entity_class primary_fields = Ok u →
  _clear_update_fields u raw = Ok d →
  _build_virtual_table_with_values_to_update u store entities d = Ok v →
  Forall2
    (fun r row =>
       Forall2
         (fun nt cell =>
            ∃ value field,
              getattr store r nt.1 = Ok value
              ∧ dict_get (columns model_class) nt.1 = Some field
              ∧ nt.2 = type_ field
              ∧ cell = cell_spec (type_ field) value)
         (values_columns v) row)
    entities (values_data v).
Proof.
  intros Hwf Hu Hd (_ & Hcols & Hrows)%build_values_inv.
  eapply Forall2_impl; [exact Hrows|]. intros r row Hrow. simpl in Hrow.
  rewrite Hcols. apply Forall2_fmap_l.
  unfold keys in Hrow. rewrite <- fmap_app in Hrow.
  apply Forall2_fmap_l in Hrow.
  assert (Forall (fun kf => dict_get (columns model_class) kf.1 = Some kf.2)
                 (_primary_fields_by_name u ++ d)) as Hall.
  { apply Forall_app. split.
    - eapply Forall_impl; [exact (configured_primary_Forall _ _ _ _ Hwf Hu)|].
      by intros kf [_ ?].
    - by destruct (configured_resolved _ _ _ _ Hu _ _ Hd) as (_ & ? & _). }
  eapply Forall2_impl; [exact (Forall_Forall2_l _ _ _ _ Hall Hrow)|].
  intros [n f] cell [Hnf (value & field & Hval & Hfield & ->)]. simpl in *.
  rewrite (configured_orm _ _ _ _ Hu) in Hfield.
  exists value, f. rewrite Hfield in Hnf. by injection Hnf as ->.
Qed.

(** C5: for a configured updater, live entities that carry the
    primary-key fields and a resolved update mapping, the row-set is built;
    its columns are the primary-key fields, in the order of the row schema,
    followed by the update fields, in the order of the resolved mapping;
    it has one row per entity, in input order, and every row lists, column
    by column against that same schema, the entity's value of the
    column's field. *)
Theorem virtual_row_set_column_order
    model_class entity_class primary_fields u store entities raw d :
  wf_columns (columns model_class) →
  __init__ model_class entity_class primary_fields = Ok u →
  keys (_primary_fields_by_name u) ⊆ model_fields entity_class →
  Forall (instance_of store entity_class) entities →
  _clear_update_fields u raw = Ok d →
  ∃ v,
    _build_virtual_table_with_values_to_update u store entities d = Ok v
    ∧ (values_columns v).*1 = keys (_primary_fields_by_name u) ++ keys d
    ∧ keys (_primary_fields_by_name u)
      = keys (filter (fun kf => _is_primary_key primary_fields kf.1 kf.2 = true)
                     (columns model_class))
    ∧ length (values_data v) = length entities
    ∧ Forall2
        (fun r row =>
           Forall2
             (fun nt cell =>
                ∃ value, getattr store r nt.1 = Ok value
                         ∧ cell = cell_spec nt.2 value)
             (values_columns v) row)
        entities (values_data v).
Proof.
  intros Hwf Hu Hkeys Hinst Hd.
  destruct (pipeline_values_Ok _ _ _ _ _ _ _ _ Hwf Hu Hkeys Hinst Hd)
    as [v Hv].
  exists v. split; [done|].
  pose proof (pipeline_rows _ _ _ _ _ _ _ _ _ Hwf Hu Hd Hv) as Hrows.
  destruct (build_values_inv _ _ _ _ _ Hv) as (_ & Hcols & _).
  split.
  { rewrite Hcols. unfold keys. rewrite <- fmap_app, <- list_fmap_compose.
    by apply list_fmap_ext. }
  split.
  { by rewrite (configured_primary _ _ _ _ Hwf Hu). }
  split.
  { symmetry. by eapply Forall2_length. }
  eapply Forall2_impl; [exact Hrows|]. intros r row Hrow. simpl in Hrow.
  eapply Forall2_impl; [exact Hrow|].
  intros nt cell (value & field & Hval & _ & -> & ->). by exists value.
Qed.

Lemma virtual_row_set_column_order_witness :
  ∃ v,
    _build_virtual_table_with_values_to_update order_updater order_store
      [0; 1] [("total", mkColumn "total" Numeric false)] = Ok v
    ∧ (values_columns v).*1 = ["order_id"; "attempt_id"] ++ ["total"]
    ∧ ["order_id"; "attempt_id"]
      = keys (filter (fun kf => _is_primary_key None kf.1 kf.2 = true)
                     (columns order_model))
    ∧ length (values_data v) = 2
    ∧ Forall2
        (fun r row =>
           Forall2
             (fun nt cell =>
                ∃ value, getattr order_store r nt.1 = Ok value
                         ∧ cell = cell_spec nt.2 value)
             (values_columns v) row)
        [0; 1] (values_data v).
Proof.
  apply (virtual_row_set_column_order order_model order_entity None
           order_updater order_store [0; 1] (Some ["total"; "order_id"])).
  - apply (bool_decide_unpack _). vm_compute. exact I.
  - reflexivity.
  - apply (bool_decide_unpack _). vm_compute. exact I.
  - apply (bool_decide_unpack _). vm_compute. exact I.
  - reflexivity.
Defined.

(** C6: for a configured updater and live entities that carry the
    primary-key fields, the row-set is built, its columns are exactly the
    primary-key fields followed by the resolved update fields, and it
    has one row per entity.  For every entity [i] of the batch and every
    such field [j], the row-set has a row [i] with as many cells as there
    are columns, its column [j] bears the field's name and the declared
    type [t] of the row-schema column of that name, and the cell of row [i]
    in column [j] is [sa.null().cast(t)] when the entity's value of the
    field is [None], and is the entity's value itself otherwise. *)
Theorem null_values_are_cast
    model_class entity_class primary_fields u store entities raw d :
  wf_columns (columns model_class) →
  __init__ model_class entity_class primary_fields = Ok u →
  keys (_primary_fields_by_name u) ⊆ model_fields entity_class →
  Forall (instance_of store entity_class) entities →
  _clear_update_fields u raw = Ok d →
  ∃ v,
    _build_virtual_table_with_values_to_update u store entities d = Ok v
    ∧ (values_columns v).*1 = keys (_primary_fields_by_name u) ++ keys d
    ∧ length (values_data v) = length entities
    ∧ (∀ i j r n,
         entities !! i = Some r →
         (keys (_primary_fields_by_name u) ++ keys d) !! j = Some n →
         ∃ value field row cell,
           getattr store r n = Ok value
           ∧ dict_get (columns model_class) n = Some field
           ∧ values_columns v !! j = Some (n, type_ field)
           ∧ values_data v !! i = Some row
           ∧ length row = length (values_columns v)
           ∧ row !! j = Some cell
           ∧ (value = PyNone → cell = NullCast (type_ field))
           ∧ (value ≠ PyNone → cell = Raw value))
    ∧ (∀ i j r n t,
         entities !! i = Some r →
         values_columns v !! j = Some (n, t) →
         ∃ value field row cell,
           getattr store r n = Ok value
           ∧ dict_get (columns model_class) n = Some field
           ∧ t = type_ field
           ∧ values_data v !! i = Some row
           ∧ row !! j = Some cell
           ∧ (value = PyNone → cell = NullCast (type_ field))
           ∧ (value ≠ PyNone → cell = Raw value)).
Proof.
  intros Hwf Hu Hkeys Hinst Hd.
  destruct (pipeline_values_Ok _ _ _ _ _ _ _ _ Hwf Hu Hkeys Hinst Hd)
    as [v Hv].
  exists v. split; [done|].
  pose proof (pipeline_rows _ _ _ _ _ _ _ _ _ Hwf Hu Hd Hv) as Hrows.
  destruct (build_values_inv _ _ _ _ _ Hv) as (_ & Hcols & _).
  assert ((values_columns v).*1 = keys (_primary_fields_by_name u) ++ keys d)
    as Hnames.
  { rewrite Hcols. unfold keys. rewrite <- fmap_app, <- list_fmap_compose.
    by apply list_fmap_ext. }
  assert (∀ i j r n t,
            entities !! i = Some r →
            values_columns v !! j = Some (n, t) →
            ∃ value field row,
              getattr store r n = Ok value
              ∧ dict_get (columns model_class) n = Some field
              ∧ t = type_ field
              ∧ values_data v !! i = Some row
              ∧ length row = length (values_columns v)
              ∧ row !! j = Some (cell_spec (type_ field) value)) as Hcell.
  { intros i j r n t Hi Hj.
    destruct (Forall2_lookup_l _ _ _ _ _ Hrows Hi) as (row & Hrow & Hcells).
    destruct (Forall2_lookup_l _ _ _ _ _ Hcells Hj)
      as (cell & Hcell & value & field & Hval & Hfield & Ht & ->).
    simpl in *. exists value, field, row. repeat split; try done.
    symmetry. by eapply Forall2_length. }
  split; [done|]. split; [symmetry; by eapply Forall2_length|]. split.
  - intros i j r n Hi Hj. rewrite <- Hnames, list_lookup_fmap in Hj.
    destruct (values_columns v !! j) as [[n' t]|] eqn:Hcol; [|done].
    simpl in Hj. injection Hj as ->.
    destruct (Hcell i j r n t Hi Hcol)
      as (value & field & row & Hval & Hfield & -> & Hrow & Hlen & Hc).
    exists value, field, row, (cell_spec (type_ field) value).
    repeat split; try done.
    + by intros ->.
    + by destruct value.
  - intros i j r n t Hi Hj.
    destruct (Hcell i j r n t Hi Hj)
      as (value & field & row & Hval & Hfield & -> & Hrow & Hlen & Hc).
    exists value, field, row, (cell_spec (type_ field) value).
    repeat split; try done.
    + by intros ->.
    + by destruct value.
Qed.

Lemma null_values_are_cast_witness :
  ∃ v,
    _build_virtual_table_with_values_to_update order_updater order_store
      [0; 1] (_default_update_fields_by_name order_updater) = Ok v
    ∧ (values_columns v).*1
      = keys (_primary_fields_by_name order_updater)
        ++ keys (_default_update_fields_by_name order_updater)
    ∧ length (values_data v) = length [0; 1]
    ∧ (∀ i j r n,
         [0; 1] !! i = Some r →
         (keys (_primary_fields_by_name order_updater)
          ++ keys (_default_update_fields_by_name order_updater)) !! j
         = Some n →
         ∃ value field row cell,
           getattr order_store r n = Ok value
           ∧ dict_get (columns order_model) n = Some field
           ∧ values_columns v !! j = Some (n, type_ field)
           ∧ values_data v !! i = Some row
           ∧ length row = length (values_columns v)
           ∧ row !! j = Some cell
           ∧ (value = PyNone → cell = NullCast (type_ field))
           ∧ (value ≠ PyNone → cell = Raw value))
    ∧ (∀ i j r n t,
         [0; 1] !! i = Some r →
         values_columns v !! j = Some (n, t) →
         ∃ value field row cell,
           getattr order_store r n = Ok value
           ∧ dict_get (columns order_model) n = Some field
           ∧ t = type_ field
           ∧ values_data v !! i = Some row
           ∧ row !! j = Some cell
           ∧ (value = PyNone → cell = NullCast (type_ field))
           ∧ (value ≠ PyNone → cell = Raw value)).
Proof.
  apply (null_values_are_cast order_model order_entity None
           order_updater order_store [0; 1] None).
  - apply (bool_decide_unpack _). vm_compute. exact I.
  - reflexivity.
  - apply (bool_decide_unpack _). vm_compute. exact I.
  - apply (bool_decide_unpack _). vm_compute. exact I.
  - reflexivity.
Defined.

(** The spec's scenario: two attempts of one order, one of them with no
    total. *)
Example order_row_set :
  _build_virtual_table_with_values_to_update order_updater order_store [0; 1]
    (_default_update_fields_by_name order_updater)
  = Ok {| values_name := "new_data";
          values_columns := [("order_id", Integer); ("attempt_id", Integer);
                             ("status", Text); ("total", Numeric)];
          values_data :=
            [[Raw (PyInt 1); Raw (PyInt 1); Raw (PyStr "paid");
              NullCast Numeric];
             [Raw (PyInt 1); Raw (PyInt 2); Raw (PyStr "failed");
              Raw (PyInt 50)]] |}.
Proof. reflexivity. Qed.

(** ** The statement *)



(** The scoping filter of the spec's scenario, with its composite key. *)
Example order_scoping_filter :
  _build_many_lookup_expr_for_table order_updater order_store [0; 1]
  = Ok (And_ [InList (TableCol (mkColumn "order_id" Integer true))
                     [PyInt 1; PyInt 1];
              InList (TableCol (mkColumn "attempt_id" Integer true))
                     [PyInt 1; PyInt 2]]).
Proof. reflexivity. Qed.

(** ** Return values *)

(** C9: for a configured updater bound to a session whose database carries
    the statement out, [update_from_entity] returns the entity reference it
    was given and [update_from_entities], for a non-empty batch, returns the
    entity list it was given.  Whatever the world and the outcome, a value
    returned by either method is that same entity (list), and neither method
    changes any entity instance. *)
Theorem update_passes_entities_through
    db_raises model_class entity_class primary_fields u self session w :
  wf_columns (columns model_class) →
  __init__ model_class entity_class primary_fields = Ok u →
  keys (_primary_fields_by_name u) ⊆ model_fields entity_class →
  updaters w !! self = Some (set_session session u) →
  (∀ stmt, db_raises session stmt = None) →
  (∀ entity raw,
     instance_of (entities_of w) entity_class entity →
     (update_from_entity db_raises self entity raw w).1 = Ok entity)
  ∧ (∀ entities raw,
       entities ≠ [] →
       Forall (instance_of (entities_of w) entity_class) entities →
       (update_from_entities db_raises self entities raw w).1
       = Ok (Some entities))
  ∧ (∀ db self' entity raw w' x,
       (update_from_entity db self' entity raw w').1 = Ok x → x = entity)
  ∧ (∀ db self' entities raw w' x,
       entities ≠ [] →
       (update_from_entities db self' entities raw w').1 = Ok x →
       x = Some entities)
  ∧ (∀ db self' entity raw w',
       entities_of (update_from_entity db self' entity raw w').2
       = entities_of w')
  ∧ (∀ db self' entities raw w',
       entities_of (update_from_entities db self' entities raw w').2
       = entities_of w').
Proof.
  intros Hwf Hu Hkeys Hself Hdb. repeat split.
  - intros entity raw Hinst.
    destruct (update_from_entity_run db_raises _ _ _ _ _ _ _
                Hwf Hu Hkeys Hself entity raw Hinst) as (d & _ & Hrun).
    simpl in Hrun. rewrite Hrun. simpl. by rewrite Hdb.
  - intros entities raw Hne Hinst.
    destruct (update_from_entities_run db_raises _ _ _ _ _ _ _
                Hwf Hu Hkeys Hself entities raw Hne Hinst)
      as (d & v & _ & _ & Hrun).
    simpl in Hrun. rewrite Hrun. simpl. by rewrite Hdb.
  - intros db self' entity raw w' x. apply update_from_entity_result.
  - intros db self' entities raw w' x Hne Hx.
    apply update_from_entities_result in Hx. by destruct entities.
  - intros db self' entity raw w'.
    by destruct (update_from_entity_frame db self' entity raw w') as (_ & ? & _).
  - intros db self' entities raw w'.
    by destruct (update_from_entities_frame db self' entities raw w')
      as (_ & ? & _).
Qed.

Lemma update_passes_entities_through_witness :
  (update_from_entity accepting_db 0 1 None (__call__ 0 7 order_world).2).1
  = Ok 1
  ∧ (update_from_entities accepting_db 0 [0; 1] None
       (__call__ 0 7 order_world).2).1
    = Ok (Some [0; 1]).
Proof.
  destruct (update_passes_entities_through accepting_db
              order_model order_entity None order_updater
              0 7 (__call__ 0 7 order_world).2) as (Hone & Hmany & _).
  - apply (bool_decide_unpack _). vm_compute. exact I.
  - reflexivity.
  - apply (bool_decide_unpack _). vm_compute. exact I.
  - reflexivity.
  - reflexivity.
  - split.
    + apply (Hone 1 None). apply (bool_decide_unpack _). vm_compute. exact I.
    + apply (Hmany [0; 1] None); [discriminate|].
      apply (bool_decide_unpack _). vm_compute. exact I.
Defined.

(** ** Binding a session *)

(** C10: [__call__] returns the reference it was called on.  Of the world
    it changes the session slot of that one instance: the instance's other
    slots, every other instance, the entities and the statements sent so
    far stay as they are.  Neither update method changes any updater
    instance.  A second binding replaces the session of the first, and an
    update call made afterwards through the reference that the first
    binding returned sends its statement to the session bound last. *)
Theorem binding_sets_the_session_slot
    db_raises model_class entity_class primary_fields u
    self w s1 s2 entities raw :
  wf_columns (columns model_class) →
  __init__ model_class entity_class primary_fields = Ok u →
  keys (_primary_fields_by_name u) ⊆ model_fields entity_class →
  updaters w !! self = Some u →
  entities ≠ [] →
  Forall (instance_of (entities_of w) entity_class) entities →
  (__call__ self s1 w).1 = Ok self
  ∧ (∃ u1,
       updaters (__call__ self s1 w).2 !! self = Some u1
       ∧ _session u1 = Some s1
       ∧ _primary_fields_by_name u1 = _primary_fields_by_name u
       ∧ _default_update_fields_by_name u1 = _default_update_fields_by_name u
       ∧ _orm_model_fields u1 = _orm_model_fields u
       ∧ _primary_fields u1 = _primary_fields u
       ∧ _model_class u1 = _model_class u
       ∧ _entity_class u1 = _entity_class u)
  ∧ (∀ r, r ≠ self →
          updaters (__call__ self s1 w).2 !! r = updaters w !! r)
  ∧ entities_of (__call__ self s1 w).2 = entities_of w
  ∧ executed (__call__ self s1 w).2 = executed w
  ∧ (∀ db self' entity raw' w',
       updaters (update_from_entity db self' entity raw' w').2 = updaters w')
  ∧ (∀ db self' entities' raw' w',
       updaters (update_from_entities db self' entities' raw' w').2
       = updaters w')
  ∧ (∃ u2,
       updaters (__call__ self s2 (__call__ self s1 w).2).2 !! self = Some u2
       ∧ _session u2 = Some s2)
  ∧ (∃ stmt,
       executed
         (mbind (__call__ self s1)
            (fun bound =>
               mbind (__call__ self s2)
                 (fun _ =>
                    update_from_entities db_raises bound entities raw))
            w).2
       = executed w ++ [(s2, stmt)]).
Proof.
  intros Hwf Hu Hkeys Hself Hne Hinst.
  destruct (call_spec self s1 w) as (Hret & Hnew & Hother & Hents & Hexec).
  rewrite Hself in Hnew.
  split; [done|]. split.
  { exists (set_session s1 u). split; [exact Hnew|]. by repeat split. }
  split; [done|]. split; [done|]. split; [done|]. split.
  { intros db self' entity raw' w'.
    by destruct (update_from_entity_frame db self' entity raw' w'). }
  split.
  { intros db self' entities' raw' w'.
    by destruct (update_from_entities_frame db self' entities' raw' w'). }
  assert (updaters (__call__ self s2 (__call__ self s1 w).2).2 !! self
          = Some (set_session s2 u)) as Hnew2.
  { destruct (call_spec self s2 (__call__ self s1 w).2) as (_ & H2 & _).
    rewrite H2, Hnew. reflexivity. }
  split.
  { exists (set_session s2 u). by split. }
  change (∃ stmt,
            executed
              (update_from_entities db_raises self entities raw
                 (__call__ self s2 (__call__ self s1 w).2).2).2
            = executed w ++ [(s2, stmt)]).
  destruct (update_from_entities_run db_raises _ _ _ _ self s2
              (__call__ self s2 (__call__ self s1 w).2).2
              Hwf Hu Hkeys Hnew2 entities raw Hne Hinst)
    as (d & v & _ & _ & Hrun).
  cbv zeta in Hrun. rewrite Hrun. simpl. by eexists.
Qed.

Lemma binding_sets_the_session_slot_witness :
  ∃ stmt,
    executed
      (mbind (__call__ 0 7)
         (fun bound =>
            mbind (__call__ 0 8)
              (fun _ => update_from_entities accepting_db bound [0; 1] None))
         order_world).2
    = [] ++ [(8, stmt)].
Proof.
  destruct (binding_sets_the_session_slot accepting_db
              order_model order_entity None order_updater
              0 order_world 7 8 [0; 1] None)
    as (_ & _ & _ & _ & _ & _ & _ & _ & Hlast).
  - apply (bool_decide_unpack _). vm_compute. exact I.
  - reflexivity.
  - apply (bool_decide_unpack _). vm_compute. exact I.
  - reflexivity.
  - discriminate.
  - apply (bool_decide_unpack _). vm_compute. exact I.
  - exact Hlast.
Defined.

(** * Further properties of the code *)

(** ** How a call proceeds, step by step *)

Lemma traverse_app {A B} (f : A → result B) l1 l2 :
  traverse f (l1 ++ l2)
  = (let? bs1 := traverse f l1 in
     let? bs2 := traverse f l2 in
     Ok (bs1 ++ bs2)).
Proof.
  induction l1 as [|a l1 IH]; simpl.
  - by destruct (traverse f l2).
  - destruct (f a) as [b|]; simpl; [|done]. rewrite IH.
    destruct (traverse f l1) as [bs1|]; simpl; [|done].
    by destruct (traverse f l2).
Qed.




Section Steps.
Variable db_raises : Session → Update → option exn.
Variables (self : UpdaterRef) (w : World) (u' : Updater).
Hypothesis Hself : updaters w !! self = Some u'.

Lemma update_from_entities_steps entities raw d v stmt :
  entities ≠ [] →
  _clear_update_fields u' raw = Ok d →
  _build_virtual_table_with_values_to_update u' (entities_of w) entities d
  = Ok v →
  _build_update_statement u' (entities_of w) entities d v = Ok stmt →
  update_from_entities db_raises self entities raw w
  = match session_of u' with
    | Ok s => (outcome (db_raises s stmt) (Some entities), logged w s stmt)
    | Raise e => (Raise e, w)
    end.
Proof.
  intros Hne Hd Hv Hstmt. unfold update_from_entities.
  destruct entities as [|r rs]; [done|]. cbn [length Nat.eqb].
  unfold mbind, slots, get_world, lift, execute, mret.
  rewrite Hself, Hd, Hv, Hstmt.
  destruct (session_of u') as [s|]; [|done].
  by destruct (db_raises s stmt).
Qed.


Lemma update_from_entity_steps entity raw d lookup kvs :
  _clear_update_fields u' raw = Ok d →
  _build_single_lookup_expr_for_table u' (entities_of w) entity = Ok lookup →
  traverse
    (fun field_name =>
       let? v := getattr (entities_of w) entity field_name in
       Ok (field_name, Param v))
    (keys d) = Ok kvs →
  update_from_entity db_raises self entity raw w
  = match session_of u' with
    | Ok s =>
        let stmt := {| table := _model_class u';
                       whereclause := lookup;
                       set_values := dict_of_items kvs |} in
        (outcome (db_raises s stmt) entity, logged w s stmt)
    | Raise e => (Raise e, w)
    end.
Proof.
  intros Hd Hlookup Hkvs. unfold update_from_entity.
  unfold mbind, slots, get_world, lift, execute, mret.
  rewrite Hself, Hd, Hlookup, Hkvs.
  destruct (session_of u') as [s|]; [|done].
  simpl. by destruct (db_raises s _).
Qed.

End Steps.

(** The two pure parts of the single-entity statement. *)
Section Single.
Variables (model_class : OrmModel) (entity_class : EntityClass)
          (primary_fields : option (gset string)) (u : Updater).
Variables (store : list Entity) (entity : EntityRef).
Variables (raw : option (list string)) (d : dict Column).
Hypothesis Hwf : wf_columns (columns model_class).
Hypothesis Hinit : __init__ model_class entity_class primary_fields = Ok u.
Hypothesis Hkeys :
  keys (_primary_fields_by_name u) ⊆ model_fields entity_class.
Hypothesis Hinst : instance_of store entity_class entity.
Hypothesis Hd : _clear_update_fields u raw = Ok d.

Lemma single_lookup_Ok :
  _build_single_lookup_expr_for_table u store entity
  = Ok (single_lookup_spec (vals (_primary_fields_by_name u)) store entity).
Proof.
  unfold _build_single_lookup_expr_for_table, single_lookup_spec.
  erewrite traverse_total; [done|].
  intros f Hf. simpl. erewrite getattr_instance; [done|exact Hinst|].
  apply Hkeys. unfold vals, keys in *.
  apply list_elem_of_fmap in Hf as ([n f'] & -> & Hf).
  pose proof (configured_primary_Forall _ _ _ _ Hwf Hinit) as Hpk.
  rewrite Forall_forall in Hpk. destruct (Hpk _ Hf) as [Hkey _].
  simpl in *. rewrite Hkey. apply list_elem_of_fmap. by exists (n, f').
Qed.

Lemma single_set_Ok :
  traverse
    (fun field_name =>
       let? v := getattr store entity field_name in
       Ok (field_name, Param v))
    (keys d)
  = Ok (single_set_spec d store entity).
Proof.
  destruct (configured_resolved _ _ _ _ Hinit _ _ Hd) as (_ & _ & Hin & _).
  unfold keys, single_set_spec. rewrite traverse_fmap.
  apply traverse_total. intros [n f] Hnf. simpl.
  erewrite getattr_instance; [done|exact Hinst|].
  apply Hin. apply list_elem_of_fmap. by exists (n, f).
Qed.

Lemma single_set_fresh :
  dict_of_items (single_set_spec d store entity)
  = single_set_spec d store entity.
Proof.
  destruct (configured_resolved _ _ _ _ Hinit _ _ Hd) as (Hnd & _).
  apply dict_of_items_fresh.
  unfold single_set_spec. rewrite <- list_fmap_compose.
  unfold keys in Hnd. erewrite list_fmap_ext; [exact Hnd|]. done.
Qed.

End Single.

Lemma fresh_instance_unbound model_class entity_class primary_fields u :
  __init__ model_class entity_class primary_fields = Ok u →
  session_of u = Raise (AttributeError "_session").
Proof.
  destruct (init_spec model_class entity_class primary_fields)
    as (u' & kvs & Hu' & _ & _ & Hs & _).
  rewrite Hu'. intros [= <-]. unfold session_of. by rewrite Hs.
Qed.

(** ** Error behaviour *)

(** X1: an instance that [__init__] built and that was never bound has no
    session.  Both update methods build their statement first and then
    raise [AttributeError] for the [_session] slot; nothing is sent and the
    world is as before. *)
Theorem unbound_updater_raises
    db_raises model_class entity_class primary_fields u self w :
  wf_columns (columns model_class) →
  __init__ model_class entity_class primary_fields = Ok u →
  keys (_primary_fields_by_name u) ⊆ model_fields entity_class →
  updaters w !! self = Some u →
  (∀ entity raw,
     instance_of (entities_of w) entity_class entity →
     update_from_entity db_raises self entity raw w
     = (Raise (AttributeError "_session"), w))
  ∧ (∀ entities raw,
       entities ≠ [] →
       Forall (instance_of (entities_of w) entity_class) entities →
       update_from_entities db_raises self entities raw w
       = (Raise (AttributeError "_session"), w)).
Proof.
  intros Hwf Hu Hkeys Hself. split.
  - intros entity raw Hinst.
    destruct (clear_is_Ok u raw) as [d Hd].
    rewrite (update_from_entity_steps db_raises self w u Hself entity raw d
               _ _ Hd
               (single_lookup_Ok _ _ _ _ _ _ Hwf Hu Hkeys Hinst)
               (single_set_Ok _ _ _ _ _ _ _ _ Hu Hinst Hd)).
    by rewrite (fresh_instance_unbound _ _ _ _ Hu).
  - intros entities raw Hne Hinst.
    destruct (clear_is_Ok u raw) as [d Hd].
    destruct (pipeline_values_Ok _ _ _ _ _ _ _ _ Hwf Hu Hkeys Hinst Hd)
      as [v Hv].
    rewrite (update_from_entities_steps db_raises self w u Hself entities raw
               d v _ Hne Hd Hv
               (pipeline_statement _ _ _ _ _ _ _ _ Hwf Hu Hkeys Hinst Hd v Hv)).
    by rewrite (fresh_instance_unbound _ _ _ _ Hu).
Qed.

Lemma unbound_updater_raises_witness :
  update_from_entity accepting_db 0 1 None order_world
  = (Raise (AttributeError "_session"), order_world)
  ∧ update_from_entities accepting_db 0 [0; 1] None order_world
    = (Raise (AttributeError "_session"), order_world).
Proof.
  destruct (unbound_updater_raises accepting_db
              order_model order_entity None order_updater 0 order_world)
    as [Hone Hmany].
  - apply (bool_decide_unpack _). vm_compute. exact I.
  - reflexivity.
  - apply (bool_decide_unpack _). vm_compute. exact I.
  - reflexivity.
  - split.
    + apply (Hone 1 None). apply (bool_decide_unpack _). vm_compute. exact I.
    + apply (Hmany [0; 1] None); [discriminate|].
      apply (bool_decide_unpack _). vm_compute. exact I.
Defined.



(** A needed name that the instance does not hold but its class provides
    is no error: the instance built without its [json] field yields the
    method [BaseModel.json], which goes into the statement. *)
Example class_attribute_is_sent :
  update_from_entity accepting_db 0 0 None doc_world
  = (Ok 0,
     logged doc_world 4
       {| table := doc_model;
          whereclause :=
            And_ [Eq (TableCol (mkColumn "id" Integer true)) (Param (PyInt 1))];
          set_values := [("json", Param (PyObject "BaseModel.json"))] |}).
Proof. reflexivity. Qed.

Example class_attribute_in_row_set :
  _build_virtual_table_with_values_to_update doc_updater
    (entities_of doc_world) [0] (_default_update_fields_by_name doc_updater)
  = Ok {| values_name := "new_data";
          values_columns := [("id", Integer); ("json", Text)];
          values_data := [[Raw (PyInt 1); Raw (PyObject "BaseModel.json")]] |}.
Proof. reflexivity. Qed.



(** ** The single-entity statement *)

(** X4: for a configured updater bound to a session and a live entity that
    carries the primary-key fields, [update_from_entity] sends exactly one
    statement to the bound session.  It targets the mapped table; its WHERE
    clause is the conjunction, over all primary-key columns of the row
    schema, of "column equals the entity's value of that field"; its SET
    clause assigns every resolved update field the entity's value of that
    field, as it is: a [None] is passed on as [None], without the cast
    that the bulk path applies. *)
Theorem single_entity_statement
    db_raises model_class entity_class primary_fields u
    self session w entity raw :
  wf_columns (columns model_class) →
  __init__ model_class entity_class primary_fields = Ok u →
  keys (_primary_fields_by_name u) ⊆ model_fields entity_class →
  updaters w !! self = Some (set_session session u) →
  instance_of (entities_of w) entity_class entity →
  ∃ d stmt,
    _clear_update_fields u raw = Ok d
    ∧ executed (update_from_entity db_raises self entity raw w).2
      = executed w ++ [(session, stmt)]
    ∧ table stmt = model_class
    ∧ whereclause stmt
      = And_ ((fun f =>
                 Eq (TableCol f)
                    (Param (attr_value (entities_of w) entity (key f))))
                <$> vals (resolved_primary model_class primary_fields))
    ∧ set_values stmt
      = (fun kf => (kf.1, Param (attr_value (entities_of w) entity kf.1)))
          <$> d
    ∧ (∀ f, f ∈ vals (resolved_primary model_class primary_fields) →
            getattr (entities_of w) entity (key f)
            = Ok (attr_value (entities_of w) entity (key f)))
    ∧ (∀ n, n ∈ keys d →
            getattr (entities_of w) entity n
            = Ok (attr_value (entities_of w) entity n)).
Proof.
  intros Hwf Hu Hkeys Hself Hinst.
  destruct (update_from_entity_run db_raises _ _ _ _ _ _ _
              Hwf Hu Hkeys Hself entity raw Hinst) as (d & Hd & Hrun).
  cbv zeta in Hrun. exists d. eexists. split; [done|].
  rewrite Hrun. simpl. split; [reflexivity|]. simpl.
  rewrite (configured_primary _ _ _ _ Hwf Hu).
  split; [done|]. split; [done|]. split; [done|]. split.
  - intros f Hf. eapply getattr_instance; [exact Hinst|].
    apply Hkeys. rewrite (configured_primary _ _ _ _ Hwf Hu).
    pose proof (configured_primary_Forall _ _ _ _ Hwf Hu) as Hpk.
    rewrite (configured_primary _ _ _ _ Hwf Hu), Forall_forall in Hpk.
    unfold vals, keys in *.
    apply list_elem_of_fmap in Hf as ([n f'] & -> & Hin).
    destruct (Hpk _ Hin) as [Hkey _]. simpl in *. rewrite Hkey.
    apply list_elem_of_fmap. by exists (n, f').
  - intros n Hn. eapply getattr_instance; [exact Hinst|].
    destruct (configured_resolved _ _ _ _ Hu _ _ Hd) as (_ & _ & Hin & _).
    by apply Hin.
Qed.

Lemma single_entity_statement_witness :
  ∃ d stmt,
    _clear_update_fields order_updater None = Ok d
    ∧ executed
        (update_from_entity accepting_db 0 0 None
           (__call__ 0 7 order_world).2).2
      = [] ++ [(7, stmt)]
    ∧ table stmt = order_model
    ∧ whereclause stmt
      = And_ ((fun f =>
                 Eq (TableCol f) (Param (attr_value order_store 0 (key f))))
                <$> vals (resolved_primary order_model None))
    ∧ set_values stmt
      = (fun kf => (kf.1, Param (attr_value order_store 0 kf.1))) <$> d
    ∧ (∀ f, f ∈ vals (resolved_primary order_model None) →
            getattr order_store 0 (key f)
            = Ok (attr_value order_store 0 (key f)))
    ∧ (∀ n, n ∈ keys d →
            getattr order_store 0 n = Ok (attr_value order_store 0 n)).
Proof.
  apply (single_entity_statement accepting_db
           order_model order_entity None order_updater
           0 7 (__call__ 0 7 order_world).2 0 None).
  - apply (bool_decide_unpack _). vm_compute. exact I.
  - reflexivity.
  - apply (bool_decide_unpack _). vm_compute. exact I.
  - reflexivity.
  - apply (bool_decide_unpack _). vm_compute. exact I.
Defined.

(** The single-entity statement of the spec's first entity: its missing
    total goes to the database as a plain [None]. *)
Example order_single_statement :
  executed
    (update_from_entity accepting_db 0 0 None (__call__ 0 7 order_world).2).2
  = [(7,
      {| table := order_model;
         whereclause :=
           And_ [Eq (TableCol (mkColumn "order_id" Integer true))
                    (Param (PyInt 1));
                 Eq (TableCol (mkColumn "attempt_id" Integer true))
                    (Param (PyInt 1))];
         set_values := [("status", Param (PyStr "paid"));
                        ("total", Param PyNone)] |})].
Proof. reflexivity. Qed.

(** ** More on field resolution *)

Lemma keyed_items_eq {V} (g : string → option V) (l k : list (string * V)) :
  l.*1 = k.*1 →
  Forall (fun kv => g kv.1 = Some kv.2) l →
  Forall (fun kv => g kv.1 = Some kv.2) k →
  l = k.
Proof.
  revert k. induction l as [|[n v] l IH]; intros [|[n' v'] k]; simpl; try done.
  intros [= <- Hrest] [Hv Hl]%Forall_cons [Hv' Hk]%Forall_cons.
  simpl in *. f_equal; [congruence|]. by apply IH.
Qed.

Lemma filter_all {A} (P : A → Prop) `{∀ x, Decision (P x)} (l : list A) :
  Forall P l → filter P l = l.
Proof.
  induction l as [|a l IH]; [done|]. intros [Ha Hl]%Forall_cons.
  rewrite filter_cons_True by done. f_equal. by apply IH.
Qed.

(** X5: resolution is idempotent.  For an instance built by [__init__],
    requesting exactly the names of a resolved mapping resolves to that
    same mapping, names in the same order and mapped to the same columns. *)
Theorem resolution_is_idempotent
    model_class entity_class primary_fields u raw d :
  __init__ model_class entity_class primary_fields = Ok u →
  _clear_update_fields u raw = Ok d →
  _clear_update_fields u (Some (keys d)) = Ok d.
Proof.
  intros Hu Hd.
  destruct (configured_resolved _ _ _ _ Hu _ _ Hd) as (Hnd & _ & _ & Hdisj).
  assert (Forall (fun kv =>
                    dict_get (_default_update_fields_by_name u) kv.1
                    = Some kv.2) d) as Hvals.
  { apply Forall_forall. intros [n f] Hin. simpl.
    pose proof (dict_get_NoDup _ _ _ Hnd Hin) as Hget.
    destruct raw as [raw|].
    - by apply (clear_requested_values u raw d n f Hd).
    - simpl in Hd. by injection Hd as <-. }
  destruct (clear_requested u (keys d)) as (kvs & Hkvs & Hfst & Hall).
  rewrite Hkvs. f_equal.
  assert (kept_names u (keys d) = keys d) as Hkept.
  { unfold kept_names. apply filter_all. apply Forall_forall.
    intros n Hn. apply andb_true_iff. split.
    - apply negb_true_iff, dict_mem_false. by apply Hdisj.
    - apply dict_mem_keys. unfold keys in Hn.
      apply list_elem_of_fmap in Hn as ([n' f] & -> & Hin).
      rewrite Forall_forall in Hvals. pose proof (Hvals _ Hin) as Hget.
      apply dict_get_elem in Hget. apply list_elem_of_fmap.
      by exists (n', f). }
  rewrite Hkept in Hfst.
  assert (kvs = d) as ->.
  { by apply (keyed_items_eq
                (dict_get (_default_update_fields_by_name u))). }
  by apply dict_of_items_fresh.
Qed.

Lemma resolution_is_idempotent_witness :
  _clear_update_fields order_updater (Some ["total"])
  = Ok [("total", mkColumn "total" Numeric false)].
Proof.
  apply (resolution_is_idempotent order_model order_entity None order_updater
           (Some ["colour"; "total"; "order_id"; "total"])
           [("total", mkColumn "total" Numeric false)]).
  - reflexivity.
  - reflexivity.
Defined.

(** X6: the update fields keep the order of their source.  For an instance
    built by [__init__] from an entity schema without repeated names, the
    default update fields are the entity fields that are row-schema fields
    and not primary-key fields, in the order in which the entity schema
    declares them (not the order of the row schema).  For a request
    without repeated names, the resolved fields are the kept names in the
    order of the request. *)
Theorem update_fields_keep_source_order
    model_class entity_class primary_fields u :
  __init__ model_class entity_class primary_fields = Ok u →
  NoDup (model_fields entity_class) →
  keys (_default_update_fields_by_name u)
  = filter (fun n => n ∈ keys (columns model_class)
                     ∧ n ∉ keys (_primary_fields_by_name u))
           (model_fields entity_class)
  ∧ (∀ raw d,
       NoDup raw →
       _clear_update_fields u (Some raw) = Ok d →
       keys d
       = filter (fun n => (n ∉ keys (_primary_fields_by_name u))
                          ∧ n ∈ keys (_default_update_fields_by_name u))
                raw).
Proof.
  intros Hu Hnd. split.
  - destruct (init_spec model_class entity_class primary_fields)
      as (u' & kvs & Hu' & _ & _ & _ & _ & _ & Hpk & Hdef & Hfst & _).
    rewrite Hu' in Hu. injection Hu as <-.
    rewrite Hdef, Hpk. rewrite dict_of_items_fresh.
    + fold (keys kvs). unfold keys at 1. rewrite Hfst.
      unfold resolved_default_names. apply list_filter_iff. intros n.
      rewrite andb_true_iff, negb_true_iff, dict_mem_keys, dict_mem_false.
      done.
    + rewrite Hfst. unfold resolved_default_names. by apply NoDup_filter.
  - intros raw d Hraw Hd.
    destruct (clear_requested u raw) as (kvs & Hkvs & Hfst & _).
    rewrite Hkvs in Hd. injection Hd as <-.
    rewrite dict_of_items_fresh.
    + unfold keys at 1. rewrite Hfst.
      unfold kept_names. apply list_filter_iff. intros n.
      rewrite andb_true_iff, negb_true_iff, dict_mem_keys, dict_mem_false.
      done.
    + rewrite Hfst. unfold kept_names. by apply NoDup_filter.
Qed.

Lemma update_fields_keep_source_order_witness :
  keys (_default_update_fields_by_name order_updater)
  = filter (fun n => n ∈ keys (columns order_model)
                     ∧ n ∉ keys (_primary_fields_by_name order_updater))
           (model_fields order_entity)
  ∧ (∀ raw d,
       NoDup raw →
       _clear_update_fields order_updater (Some raw) = Ok d →
       keys d
       = filter (fun n => (n ∉ keys (_primary_fields_by_name order_updater))
                          ∧ n ∈ keys (_default_update_fields_by_name
                                        order_updater))
                raw).
Proof.
  apply (update_fields_keep_source_order order_model order_entity None
           order_updater).
  - reflexivity.
  - apply (bool_decide_unpack _). vm_compute. exact I.
Defined.

(** A request in another order than the schemas: the resolved mapping
    follows the request. *)
Example order_requested_order :
  _clear_update_fields order_updater (Some ["total"; "status"])
  = Ok [("total", mkColumn "total" Numeric false);
        ("status", mkColumn "status" Text false)].
Proof. reflexivity. Qed.

(** X7: an explicit primary-key set is tested against [None], not for
    emptiness.  With the empty set every row-schema field fails the test,
    whatever the row schema declares as primary key: the instance has no
    primary-key field, and every field that both schemas name, declared key
    columns included, is a default update field. *)
Theorem empty_explicit_key_set model_class entity_class :
  ∃ u,
    __init__ model_class entity_class (Some ∅) = Ok u
    ∧ _primary_fields_by_name u = []
    ∧ (∀ n, n ∈ keys (_default_update_fields_by_name u)
            ↔ n ∈ keys (columns model_class)
              ∧ n ∈ model_fields entity_class).
Proof.
  destruct (init_spec model_class entity_class (Some ∅))
    as (u & kvs & Hu & _ & _ & _ & _ & _ & Hpk & _).
  assert (resolved_primary model_class (Some ∅) = []) as Hempty.
  { unfold resolved_primary, items.
    induction (columns model_class) as [|[n f] cols IH]; [done|].
    rewrite filter_cons_False; [done|]. simpl.
    rewrite bool_decide_eq_true. apply not_elem_of_empty. }
  exists u. split; [done|]. rewrite Hpk, Hempty. split; [done|].
  intros n. rewrite (default_keys_elem _ _ _ u n Hu), Hpk, Hempty.
  split; [naive_solver|]. intros [? ?]. repeat split; try done.
  apply not_elem_of_nil.
Qed.

(** The spec's table with the empty set: its two declared key columns are
    update fields. *)
Example order_empty_key_set :
  (fun u => (keys (_primary_fields_by_name u),
             keys (_default_update_fields_by_name u)))
    <$> (match __init__ order_model order_entity (Some ∅) with
         | Ok u => Some u
         | Raise _ => None
         end)
  = Some ([], ["order_id"; "attempt_id"; "status"; "total"]).
Proof. reflexivity. Qed.

(** ** Statements without conditions or assignments *)

(** X8: an updater without primary-key fields (which [__init__] accepts)
    sends statements whose row conditions are empty conjunctions.  The
    single-entity statement has [and_()] of no operand as its WHERE clause,
    and the bulk statement the conjunction of two such: neither names a
    column of the table or a value of an entity. *)
Theorem keyless_updater_statements
    db_raises model_class entity_class primary_fields u self session w :
  wf_columns (columns model_class) →
  __init__ model_class entity_class primary_fields = Ok u →
  resolved_primary model_class primary_fields = [] →
  updaters w !! self = Some (set_session session u) →
  (∀ entity raw,
     instance_of (entities_of w) entity_class entity →
     ∃ stmt,
       executed (update_from_entity db_raises self entity raw w).2
       = executed w ++ [(session, stmt)]
       ∧ whereclause stmt = And_ [])
  ∧ (∀ entities raw,
       entities ≠ [] →
       Forall (instance_of (entities_of w) entity_class) entities →
       ∃ stmt,
         executed (update_from_entities db_raises self entities raw w).2
         = executed w ++ [(session, stmt)]
         ∧ whereclause stmt = And_ [And_ []; And_ []]).
Proof.
  intros Hwf Hu Hempty Hself.
  pose proof (configured_primary _ _ _ _ Hwf Hu) as Hpk.
  rewrite Hempty in Hpk.
  assert (keys (_primary_fields_by_name u) ⊆ model_fields entity_class)
    as Hkeys.
  { rewrite Hpk. intros n Hn. by apply elem_of_nil in Hn. }
  split.
  - intros entity raw Hinst.
    destruct (update_from_entity_run db_raises _ _ _ _ _ _ _
                Hwf Hu Hkeys Hself entity raw Hinst) as (d & _ & Hrun).
    cbv zeta in Hrun. rewrite Hrun. eexists. simpl.
    split; [reflexivity|]. simpl. by rewrite Hpk.
  - intros entities raw Hne Hinst.
    destruct (update_from_entities_run db_raises _ _ _ _ _ _ _
                Hwf Hu Hkeys Hself entities raw Hne Hinst)
      as (d & v & _ & _ & Hrun).
    cbv zeta in Hrun. rewrite Hrun. eexists. simpl.
    split; [reflexivity|]. simpl. by rewrite Hpk.
Qed.

Lemma keyless_updater_statements_witness :
  ∃ stmt,
    executed (update_from_entity accepting_db 0 0 None audit_world).2
    = [] ++ [(3, stmt)]
    ∧ whereclause stmt = And_ [].
Proof.
  destruct (keyless_updater_statements accepting_db
              audit_model audit_entity None audit_updater 0 3 audit_world)
    as [Hone _].
  - apply (bool_decide_unpack _). vm_compute. exact I.
  - reflexivity.
  - reflexivity.
  - reflexivity.
  - apply (Hone 0 None). apply (bool_decide_unpack _). vm_compute. exact I.
Defined.

(** X9: when the resolved update mapping is empty (only primary-key or
    unknown fields were requested, or the schemas share no other field),
    neither method returns early: each still sends one statement, and that
    statement's SET clause is empty. *)
Theorem empty_update_mapping_still_sends
    db_raises model_class entity_class primary_fields u
    self session w raw :
  wf_columns (columns model_class) →
  __init__ model_class entity_class primary_fields = Ok u →
  keys (_primary_fields_by_name u) ⊆ model_fields entity_class →
  updaters w !! self = Some (set_session session u) →
  _clear_update_fields u raw = Ok [] →
  (∀ entity,
     instance_of (entities_of w) entity_class entity →
     ∃ stmt,
       executed (update_from_entity db_raises self entity raw w).2
       = executed w ++ [(session, stmt)]
       ∧ set_values stmt = [])
  ∧ (∀ entities,
       entities ≠ [] →
       Forall (instance_of (entities_of w) entity_class) entities →
       ∃ stmt,
         executed (update_from_entities db_raises self entities raw w).2
         = executed w ++ [(session, stmt)]
         ∧ set_values stmt = []).
Proof.
  intros Hwf Hu Hkeys Hself Hnil. split.
  - intros entity Hinst.
    destruct (update_from_entity_run db_raises _ _ _ _ _ _ _
                Hwf Hu Hkeys Hself entity raw Hinst) as (d & Hd & Hrun).
    rewrite Hnil in Hd. injection Hd as <-.
    cbv zeta in Hrun. rewrite Hrun. eexists. simpl. by split.
  - intros entities Hne Hinst.
    destruct (update_from_entities_run db_raises _ _ _ _ _ _ _
                Hwf Hu Hkeys Hself entities raw Hne Hinst)
      as (d & v & Hd & _ & Hrun).
    rewrite Hnil in Hd. injection Hd as <-.
    cbv zeta in Hrun. rewrite Hrun. eexists. simpl. by split.
Qed.

Lemma empty_update_mapping_still_sends_witness :
  ∃ stmt,
    executed
      (update_from_entities accepting_db 0 [0; 1]
         (Some ["order_id"; "colour"]) (__call__ 0 7 order_world).2).2
    = [] ++ [(7, stmt)]
    ∧ set_values stmt = [].
Proof.
  destruct (empty_update_mapping_still_sends accepting_db
              order_model order_entity None order_updater
              0 7 (__call__ 0 7 order_world).2
              (Some ["order_id"; "colour"])) as [_ Hmany].
  - apply (bool_decide_unpack _). vm_compute. exact I.
  - reflexivity.
  - apply (bool_decide_unpack _). vm_compute. exact I.
  - reflexivity.
  - reflexivity.
  - apply (Hmany [0; 1]); [discriminate|].
    apply (bool_decide_unpack _). vm_compute. exact I.
Defined.

(** ** Composition of calls *)

(** X10: the bound session is kept after a call.  Two bulk updates in a
    row after one binding both go to that session, one statement each, in
    call order; for the same batch and the same requested fields the two
    statements are equal. *)
Theorem session_is_kept_across_calls
    db_raises model_class entity_class primary_fields u
    self session w entities1 raw1 entities2 raw2 :
  wf_columns (columns model_class) →
  __init__ model_class entity_class primary_fields = Ok u →
  keys (_primary_fields_by_name u) ⊆ model_fields entity_class →
  updaters w !! self = Some (set_session session u) →
  entities1 ≠ [] →
  Forall (instance_of (entities_of w) entity_class) entities1 →
  entities2 ≠ [] →
  Forall (instance_of (entities_of w) entity_class) entities2 →
  ∃ stmt1 stmt2,
    executed
      (update_from_entities db_raises self entities2 raw2
         (update_from_entities db_raises self entities1 raw1 w).2).2
    = executed w ++ [(session, stmt1); (session, stmt2)]
    ∧ (entities1 = entities2 → raw1 = raw2 → stmt1 = stmt2).
Proof.
  intros Hwf Hu Hkeys Hself Hne1 Hinst1 Hne2 Hinst2.
  destruct (update_from_entities_run db_raises _ _ _ _ _ _ _
              Hwf Hu Hkeys Hself entities1 raw1 Hne1 Hinst1)
    as (d1 & v1 & Hd1 & Hv1 & Hrun1).
  cbv zeta in Hrun1. rewrite Hrun1. cbn [snd].
  set (stmt1 := {| table := model_class;
                   whereclause := _; set_values := set_spec d1 v1 |}).
  assert (updaters (logged w session stmt1) !! self
          = Some (set_session session u)) as Hself' by exact Hself.
  destruct (update_from_entities_run db_raises _ _ _ _ _ _
              (logged w session stmt1)
              Hwf Hu Hkeys Hself' entities2 raw2 Hne2 Hinst2)
    as (d2 & v2 & Hd2 & Hv2 & Hrun2).
  cbv zeta in Hrun2. rewrite Hrun2. cbn [snd logged executed].
  eexists stmt1, _. split.
  - by rewrite <- app_assoc.
  - intros <- <-. simpl in Hv2. unfold stmt1.
    rewrite Hd1 in Hd2. injection Hd2 as <-.
    rewrite Hv1 in Hv2. by injection Hv2 as <-.
Qed.

Lemma session_is_kept_across_calls_witness :
  ∃ stmt1 stmt2,
    executed
      (update_from_entities accepting_db 0 [1] (Some ["status"])
         (update_from_entities accepting_db 0 [0; 1] None
            (__call__ 0 7 order_world).2).2).2
    = [] ++ [(7, stmt1); (7, stmt2)]
    ∧ ([0; 1] = [1] → None = Some ["status"] → stmt1 = stmt2).
Proof.
  apply (session_is_kept_across_calls accepting_db
           order_model order_entity None order_updater
           0 7 (__call__ 0 7 order_world).2 [0; 1] None [1] (Some ["status"])).
  - apply (bool_decide_unpack _). vm_compute. exact I.
  - reflexivity.
  - apply (bool_decide_unpack _). vm_compute. exact I.
  - reflexivity.
  - discriminate.
  - apply (bool_decide_unpack _). vm_compute. exact I.
  - discriminate.
  - apply (bool_decide_unpack _). vm_compute. exact I.
Defined.

(** X11: the row-set of a concatenated batch is the concatenation of the
    row-sets.  When the row-sets of two batches are built for the same
    update fields, the row-set of the two batches in a row has the same
    name and columns, and its rows are the rows of the first followed by
    the rows of the second. *)
Theorem row_set_of_concatenated_batches
    self store entities1 entities2 d v1 v2 :
  _build_virtual_table_with_values_to_update self store entities1 d = Ok v1 →
  _build_virtual_table_with_values_to_update self store entities2 d = Ok v2 →
  _build_virtual_table_with_values_to_update self store
    (entities1 ++ entities2) d
  = Ok {| values_name := values_name v1;
          values_columns := values_columns v1;
          values_data := values_data v1 ++ values_data v2 |}.
Proof.
  unfold _build_virtual_table_with_values_to_update.
  rewrite traverse_app.
  destruct (traverse _ entities1) as [data1|]; simpl; [|done].
  destruct (traverse _ entities2) as [data2|]; simpl; [|done].
  by intros [= <-] [= <-].
Qed.

Lemma row_set_of_concatenated_batches_witness :
  _build_virtual_table_with_values_to_update order_updater order_store
    ([0] ++ [1]) (_default_update_fields_by_name order_updater)
  = Ok {| values_name := "new_data";
          values_columns := [("order_id", Integer); ("attempt_id", Integer);
                             ("status", Text); ("total", Numeric)];
          values_data :=
            [[Raw (PyInt 1); Raw (PyInt 1); Raw (PyStr "paid");
              NullCast Numeric]]
            ++ [[Raw (PyInt 1); Raw (PyInt 2); Raw (PyStr "failed");
                 Raw (PyInt 50)]] |}.
Proof.
  apply (row_set_of_concatenated_batches order_updater order_store [0] [1]
           (_default_update_fields_by_name order_updater)
           {| values_name := "new_data";
              values_columns := [("order_id", Integer);
                                 ("attempt_id", Integer);
                                 ("status", Text); ("total", Numeric)];
              values_data := [[Raw (PyInt 1); Raw (PyInt 1);
                               Raw (PyStr "paid"); NullCast Numeric]] |}
           {| values_name := "new_data";
              values_columns := [("order_id", Integer);
                                 ("attempt_id", Integer);
                                 ("status", Text); ("total", Numeric)];
              values_data := [[Raw (PyInt 1); Raw (PyInt 2);
                               Raw (PyStr "failed"); Raw (PyInt 50)]] |}).
  - reflexivity.
  - reflexivity.
Defined.

(** X12: a binding leaves no trace of the binding before it.  Binding a
    second session after a first gives the same world as binding the second
    session alone; in particular binding the same session twice is the same
    as binding it once. *)
Theorem rebinding_overwrites self s1 s2 w :
  (__call__ self s2 (__call__ self s1 w).2).2 = (__call__ self s2 w).2.
Proof.
  unfold __call__. simpl. f_equal.
  rewrite list_alter_alter_eq. by apply list_alter_ext.
Qed.


